(** * TXTTunnel: the tunnel relay of [main.go], embedded and verified

    The server keeps two global maps, [tunnels] and [clients], a pair of
    rate-limiter stores, and serves four API routes.  Every handler runs
    its map accesses under a mutex, so a handler is modelled as one atomic
    state transformer [Request -> State -> Response * State].  The
    long-running stream handler is split at its blocking [select]: the
    registration of the client channel is one transition, the removal on
    disconnect another, and every channel send [client <- content] is
    recorded in a log of deliveries. *)

From stdpp Require Import gmap strings list fin_maps.
From Stdlib Require Import ZArith Ascii String.

Open Scope string_scope.
Open Scope list_scope.

(** ** Go values *)

(** [m[k]] on a Go [map[string]string]: the zero value when [k] is absent. *)
Definition mapGet (m : gmap string string) (k : string) : string :=
  default "" (m !! k).

(** A [chan string] made by [make(chan string)]: identified by its
    allocation number. *)
Definition chan := nat.

(** [type Tunnel struct] *)
Record Tunnel := mkTunnel {
  ID : string;
  Content : string;
  SubChannels : gmap string string
}.

(** ** Requests and responses *)

(** What [io.ReadAll(r.Body)] followed by [json.Unmarshal] into a
    [map[string]string] yields.  The JSON text [null] is accepted by
    [Unmarshal] and leaves the map [nil]. *)
Inductive ReqBody :=
| BodyUnreadable
| BodyMalformed
| BodyNull
| BodyObject (fields : gmap string string).

Record Request := mkRequest {
  Method : string;
  Path : string;
  RemoteAddr : string;
  XForwardedFor : string;          (* r.Header.Get("X-Forwarded-For") *)
  Query : gmap string string;      (* r.URL.Query(), first value per key *)
  Body : ReqBody
}.

(** [r.URL.Query().Get(k)] *)
Definition queryGet (r : Request) (k : string) : string := mapGet (Query r) k.

Inductive RespBody :=
| NoBody
| TextBody (msg : string)                    (* http.Error *)
| JSONBody (fields : list (string * string)) (* json.Marshal of a map *)
| FileBody (path : string)                   (* http.ServeFile *)
| EventStream (clientChan : chan).           (* text/event-stream, kept open *)

Inductive Response :=
| Reply (code : Z) (body : RespBody)
| Panic (msg : string).                      (* recovered by net/http *)

Definition MethodGet := "GET".
Definition MethodPost := "POST".

Definition StatusOK : Z := 200.
Definition StatusBadRequest : Z := 400.
Definition StatusNotFound : Z := 404.
Definition StatusMethodNotAllowed : Z := 405.
Definition StatusTooManyRequests : Z := 429.
Definition StatusInternalServerError : Z := 500.

(** [http.Error(w, msg, code)] *)
Definition httpError (msg : string) (code : Z) : Response := Reply code (TextBody msg).

(** The outcomes named by the interface contract. *)
Definition Ok : Response := Reply StatusOK NoBody.
Definition Empty : Response := Reply StatusOK NoBody.
Definition ContentOf (c : string) : Response := Reply StatusOK (JSONBody [("content", c)]).
Definition Created (id : string) : Response := Reply StatusOK (JSONBody [("id", id)]).
Definition NotFound : Response := httpError "No tunnel with this id exists." StatusNotFound.

Definition isValidationError (resp : Response) : Prop :=
  ∃ msg, resp = httpError msg StatusBadRequest.

(** ** The identifier alphabet *)

Definition charset : string := "ABCDEFGHJKLMNPQRSTUVWXYZ123456789!@#$%&*_-+=;:,.<>/?".

(** [charset[i]]; the index is always in range in the program, because it
    comes from [rand.Intn(len(charset))]. *)
Definition charsetAt (i : nat) : ascii :=
  match String.get i charset with
  | Some c => c
  | None => Ascii.zero
  end.

(** The characters of an identifier built from a list of draws. *)
Fixpoint idOfDraws (draws : list nat) : string :=
  match draws with
  | [] => ""
  | i :: rest => String (charsetAt i) (idOfDraws rest)
  end.

(** Strings over the alphabet, and draws that index it. *)
Definition inAlphabet (id : string) : Prop :=
  Forall (λ ch, ch ∈ list_ascii_of_string charset) (list_ascii_of_string id).

Definition inRange (draws : list nat) : Prop :=
  Forall (λ i, i < String.length charset) draws.

(** The position of a character in the alphabet, and the draws that
    spell a given identifier. *)
Fixpoint indexIn (ch : ascii) (l : list ascii) : nat :=
  match l with
  | [] => 0
  | x :: rest => if decide (x = ch) then 0 else S (indexIn ch rest)
  end.

Definition charsetIndex (ch : ascii) : nat := indexIn ch (list_ascii_of_string charset).

Definition drawsOfId (id : string) : list nat :=
  map charsetIndex (list_ascii_of_string id).

(** The three classes of characters of the alphabet. *)
Definition letters : string := "ABCDEFGHJKLMNPQRSTUVWXYZ".
Definition digits : string := "123456789".
Definition punctuation : string := "!@#$%&*_-+=;:,.<>/?".

(** [math/rand] and [golang.org/x/time/rate] are libraries outside the
    repository; their state and operations are the fields of an
    environment.  [Intn g n] is [rand.Intn(n)] on the global source [g];
    [Allow now l] is [l.Allow()] at wall-clock time [now] (nanoseconds);
    [NewLimiter] is [rate.NewLimiter(rate.Every(time.Minute/100), 10)]. *)
Class Env := {
  Rng : Type;
  Intn : Rng → nat → nat * Rng;
  Limiter : Type;
  NewLimiter : Limiter;
  Allow : Z → Limiter → bool * Limiter
}.

Section Relay.

Context {env : Env}.

(** ** Server state *)

(** The relay: [tunnels], [clients], the channels made so far, the log of
    channel sends in program order, and the random source. *)
Record State := mkState {
  tunnels : gmap string Tunnel;
  clients : gmap string (gmap string (list chan));
  nextChan : chan;
  sent : list (chan * string);
  rng : Rng
}.

Definition Handler := Request → State → Response * State.

(** [clients[id][subChannel]]: reading through a nil map gives a nil slice. *)
Definition sinks (s : State) (id subChannel : string) : list chan :=
  default [] (clients s !! id ≫= λ subs, subs !! subChannel).

(** What a channel has carried so far, oldest first. *)
Definition received (s : State) (c : chan) : list string :=
  (filter (λ e, e.1 = c) (sent s)).*2.

(** [func generateRandomID(amount int) string] *)
Fixpoint generateRandomID (amount : nat) (g : Rng) : string * Rng :=
  match amount with
  | 0 => ("", g)
  | S n =>
      let '(i, g1) := Intn g (String.length charset) in
      let '(rest, g2) := generateRandomID n g1 in
      (String (charsetAt i) rest, g2)
  end.

(** The draws [generateRandomID] takes from the source, in order. *)
Fixpoint drawsOf (amount : nat) (g : Rng) : list nat :=
  match amount with
  | 0 => []
  | S n => let '(i, g1) := Intn g (String.length charset) in i :: drawsOf n g1
  end.

(** ** Handlers *)

(** The head of [getTunnelContent] and of [streamTunnelContent] (the two
    functions repeat it verbatim): the tunnel id and sub-channel named by
    the request, before defaulting. *)
Definition readTarget (r : Request) : Response + string * string :=
  if decide (Method r = MethodGet) then
    let tunnelId := queryGet r "id" in
    let subChannel := queryGet r "subChannel" in
    let subChannel :=
      if decide (queryGet r "subchannel" ≠ "") then queryGet r "subchannel" else subChannel in
    let tunnelId :=
      if decide (queryGet r "ID" ≠ "") then queryGet r "ID" else tunnelId in
    inr (tunnelId, subChannel)
  else if decide (Method r = MethodPost) then
    match Body r with
    | BodyUnreadable =>
        inl (httpError "Failed to read the request body" StatusInternalServerError)
    | BodyMalformed =>
        inl (httpError "Failed to parse the request body" StatusInternalServerError)
    | BodyNull => inr ("", "")
    | BodyObject requestBodyJSON =>
        let subChannel := "" in
        let subChannel :=
          if decide (mapGet requestBodyJSON "subchannel" ≠ "")
          then mapGet requestBodyJSON "subchannel" else subChannel in
        let subChannel :=
          if decide (mapGet requestBodyJSON "subChannel" ≠ "")
          then mapGet requestBodyJSON "subChannel" else subChannel in
        let tunnelId := "" in
        let tunnelId :=
          if decide (mapGet requestBodyJSON "ID" ≠ "")
          then mapGet requestBodyJSON "ID" else tunnelId in
        let tunnelId :=
          if decide (mapGet requestBodyJSON "id" ≠ "")
          then mapGet requestBodyJSON "id" else tunnelId in
        inr (tunnelId, subChannel)
    end
  else inr ("", "").

Definition missingId : Response :=
  httpError "The request must contain a valid 'id' parameter or field" StatusBadRequest.

(** [func getTunnelContent] *)
Definition getTunnelContent : Handler := λ r s,
  match readTarget r with
  | inl failure => (failure, s)
  | inr (tunnelId, subChannel) =>
      let subChannel := if decide (subChannel = "") then "main" else subChannel in
      if decide (tunnelId = "") then (missingId, s)
      else match tunnels s !! tunnelId with
           | None => (NotFound, s)
           | Some tunnel =>
               if decide (mapGet (SubChannels tunnel) subChannel ≠ "")
               then (ContentOf (mapGet (SubChannels tunnel) subChannel), s)
               else (Empty, s)
           end
  end.

(** [func streamTunnelContent], up to the blocking loop: the new channel
    is appended to [clients[tunnelId][subChannel]]. *)
Definition streamTunnelContent : Handler := λ r s,
  match readTarget r with
  | inl failure => (failure, s)
  | inr (tunnelId, subChannel) =>
      let subChannel := if decide (subChannel = "") then "main" else subChannel in
      if decide (tunnelId = "") then (missingId, s)
      else match tunnels s !! tunnelId with
           | None => (NotFound, s)
           | Some _ =>
               let clientChan := nextChan s in
               let subs : gmap string (list chan) := default ∅ (clients s !! tunnelId) in
               let subs := <[subChannel := default [] (subs !! subChannel) ++ [clientChan]]> subs in
               (Reply StatusOK (EventStream clientChan),
                mkState (tunnels s) (<[tunnelId := subs]> (clients s))
                        (S (nextChan s)) (sent s) (rng s))
           end
  end.

(** The [case <-r.Context().Done()] arm of the stream loop: the first
    occurrence of the channel is cut out of its list. *)
Fixpoint removeClient (clientChan : chan) (l : list chan) : list chan :=
  match l with
  | [] => []
  | client :: rest =>
      if decide (client = clientChan) then rest else client :: removeClient clientChan rest
  end.

Definition disconnect (tunnelId subChannel : string) (clientChan : chan) (s : State) : State :=
  if decide (clientChan ∈ sinks s tunnelId subChannel) then
    let subs : gmap string (list chan) := default ∅ (clients s !! tunnelId) in
    let subs := <[subChannel := removeClient clientChan (sinks s tunnelId subChannel)]> subs in
    mkState (tunnels s) (<[tunnelId := subs]> (clients s)) (nextChan s) (sent s) (rng s)
  else s.

(** The tail shared by both arms of [sendToTunnel]: look the tunnel up,
    overwrite the sub-channel, then send the content on every channel
    registered for the pair. *)
Definition writeAndBroadcast (id subChannel content : string) (s : State) : Response * State :=
  match tunnels s !! id with
  | None => (NotFound, s)
  | Some tunnel =>
      let tunnel := mkTunnel (ID tunnel) (Content tunnel)
                             (<[subChannel := content]> (SubChannels tunnel)) in
      (Ok, mkState (<[id := tunnel]> (tunnels s)) (clients s) (nextChan s)
                   (sent s ++ map (λ client, (client, content)) (sinks s id subChannel))
                   (rng s))
  end.

(** [func sendToTunnel] *)
Definition sendToTunnel : Handler := λ r s,
  if decide (Method r = MethodPost) then
    match Body r with
    | BodyUnreadable =>
        (httpError "Failed to read the request body" StatusInternalServerError, s)
    | BodyMalformed =>
        (httpError "Failed to parse the request body" StatusInternalServerError, s)
    | BodyNull => (Panic "assignment to entry in nil map", s)
    | BodyObject requestBodyJSON =>
        let requestBodyJSON :=
          if decide (mapGet requestBodyJSON "subchannel" ≠ "")
          then <["subChannel" := mapGet requestBodyJSON "subchannel"]> requestBodyJSON
          else requestBodyJSON in
        let requestBodyJSON :=
          if decide (mapGet requestBodyJSON "subChannel" = "")
          then <["subChannel" := "main"]> requestBodyJSON
          else requestBodyJSON in
        let requestBodyJSON :=
          if decide (mapGet requestBodyJSON "ID" ≠ "")
          then <["id" := mapGet requestBodyJSON "ID"]> requestBodyJSON
          else requestBodyJSON in
        if decide (mapGet requestBodyJSON "id" = "" ∨ mapGet requestBodyJSON "subChannel" = ""
                   ∨ mapGet requestBodyJSON "content" = "")
        then (httpError "The request body must contain a valid 'id', 'subChannel' and 'content' field"
                        StatusBadRequest, s)
        else writeAndBroadcast (mapGet requestBodyJSON "id") (mapGet requestBodyJSON "subChannel")
                               (mapGet requestBodyJSON "content") s
    end
  else if decide (Method r = MethodGet) then
    let id := queryGet r "id" in
    let subChannel := queryGet r "subChannel" in
    let content := queryGet r "content" in
    let subChannel :=
      if decide (queryGet r "subchannel" ≠ "") then queryGet r "subchannel" else subChannel in
    let id := if decide (queryGet r "ID" ≠ "") then queryGet r "ID" else id in
    if decide (id = "" ∨ subChannel = "" ∨ content = "")
    then (httpError "The request must contain a valid 'id', 'subChannel' and 'content' parameters"
                    StatusBadRequest, s)
    else writeAndBroadcast id subChannel content s
  else (httpError "Method not allowed. Only POST and GET requests are allowed."
                  StatusMethodNotAllowed, s).

(** [tunnels[id] = &Tunnel{ID: id, Content: "", SubChannels: make(map[string]string)}] *)
Definition installTunnel (id : string) (s : State) : State :=
  mkState (<[id := mkTunnel id "" ∅]> (tunnels s)) (clients s) (nextChan s) (sent s) (rng s).

(** [func createTunnel] *)
Definition createTunnel : Handler := λ r s,
  if decide (Method r = MethodPost) then
    match Body r with
    | BodyUnreadable =>
        (httpError "Failed to read the request body" StatusInternalServerError, s)
    | BodyMalformed =>
        (httpError "Failed to parse the request body" StatusInternalServerError, s)
    | BodyNull =>
        (httpError "The request body must contain a valid 'id' field" StatusBadRequest, s)
    | BodyObject requestBodyJSON =>
        if decide (mapGet requestBodyJSON "id" = "")
        then (httpError "The request body must contain a valid 'id' field" StatusBadRequest, s)
        else (Created (mapGet requestBodyJSON "id"), installTunnel (mapGet requestBodyJSON "id") s)
    end
  else if decide (Method r = MethodGet) then
    if decide (queryGet r "id" = "") then
      let '(tunnelId, g) := generateRandomID 6 (rng s) in
      (Created tunnelId,
       installTunnel tunnelId (mkState (tunnels s) (clients s) (nextChan s) (sent s) g))
    else (Created (queryGet r "id"), installTunnel (queryGet r "id") s)
  else (httpError "Method not allowed. Only POST and GET requests are allowed."
                  StatusMethodNotAllowed, s).

(** ** Rate limiting *)

(** [CleanupInterval = 1 * time.Hour], in nanoseconds. *)
Definition CleanupInterval : Z := 3600 * 1000000000.

(** [type RateLimiter struct] *)
Record RateLimiter := mkRateLimiter {
  limiter : Limiter;
  lastSeen : Z
}.

(** [type RateLimiterStore struct] *)
Record RateLimiterStore := mkStore {
  limiters : gmap string RateLimiter;
  cleanupFreq : Z
}.

Definition newStore : RateLimiterStore := mkStore ∅ CleanupInterval.

(** [func (store *RateLimiterStore) getLimiter(key string) *rate.Limiter]:
    the entry is made on first use and its [lastSeen] refreshed. *)
Definition getLimiter (now : Z) (key : string) (store : RateLimiterStore)
  : Limiter * RateLimiterStore :=
  let entry :=
    match limiters store !! key with
    | Some entry => entry
    | None => mkRateLimiter NewLimiter now
    end in
  let entry := mkRateLimiter (limiter entry) now in
  (limiter entry, mkStore (<[key := entry]> (limiters store)) (cleanupFreq store)).

(** [store.getLimiter(key).Allow()]: [Allow] updates the limiter that the
    store's entry points to. *)
Definition getLimiterAllow (now : Z) (key : string) (store : RateLimiterStore)
  : bool * RateLimiterStore :=
  let '(l, store) := getLimiter now key store in
  let '(ok, l) := Allow now l in
  (ok, mkStore (alter (λ entry, mkRateLimiter l (lastSeen entry)) key (limiters store))
               (cleanupFreq store)).

(** One wake-up of [func (store *RateLimiterStore) cleanup()]: entries not
    seen for longer than [cleanupFreq] are deleted. *)
Definition cleanup (now : Z) (store : RateLimiterStore) : RateLimiterStore :=
  mkStore (filter (λ kv : string * RateLimiter,
                     ¬ (cleanupFreq store < now - lastSeen kv.2)%Z) (limiters store))
          (cleanupFreq store).

(** The whole process: both limiter stores and the relay. *)
Record Server := mkServer {
  ipLimiters : RateLimiterStore;
  tunnelLimiters : RateLimiterStore;
  relay : State
}.

Definition ServerHandler := Z → Request → Server → Response * Server.

(** The caller key of [withRateLimit]: the forwarded-for header when
    present, the remote address otherwise. *)
Definition callerKey (r : Request) : string :=
  if decide (XForwardedFor r ≠ "") then XForwardedFor r else RemoteAddr r.

(** The tunnel id [withRateLimit] resolves from the request. *)
Definition limitedTunnelID (r : Request) : string :=
  if decide (Method r = MethodGet) then
    let tunnelID := queryGet r "id" in
    if decide (tunnelID = "") then queryGet r "ID" else tunnelID
  else if decide (Method r = MethodPost) then
    match Body r with
    | BodyObject body =>
        let tunnelID := mapGet body "id" in
        if decide (tunnelID = "") then mapGet body "ID" else tunnelID
    | _ => ""
    end
  else "".

(** [func withRateLimit(next http.HandlerFunc) http.HandlerFunc].  The
    body decoded for the tunnel id is marshalled back for [next], which
    therefore reads the same fields. *)
Definition withRateLimit (next : Handler) : ServerHandler := λ now r sv,
  let ip := callerKey r in
  let '(ok, ipStore) := getLimiterAllow now ip (ipLimiters sv) in
  if negb ok then
    (httpError "IP rate limit exceeded" StatusTooManyRequests,
     mkServer ipStore (tunnelLimiters sv) (relay sv))
  else
    let tunnelID := limitedTunnelID r in
    if decide (tunnelID ≠ "") then
      let '(ok, tunnelStore) := getLimiterAllow now tunnelID (tunnelLimiters sv) in
      if negb ok then
        (httpError "Tunnel rate limit exceeded" StatusTooManyRequests,
         mkServer ipStore tunnelStore (relay sv))
      else
        let '(resp, s) := next r (relay sv) in
        (resp, mkServer ipStore tunnelStore s)
    else
      let '(resp, s) := next r (relay sv) in
      (resp, mkServer ipStore (tunnelLimiters sv) s).

(** [func withCORS(handler http.HandlerFunc) http.HandlerFunc]
    (response headers are not modelled). *)
Definition withCORS (handler : ServerHandler) : ServerHandler := λ now r sv,
  if decide (Method r = "OPTIONS") then (Reply StatusOK NoBody, sv)
  else handler now r sv.

Definition giveLicense : ServerHandler := λ _ _ sv,
  (Reply StatusOK (FileBody "web/LICENSE.txt"), sv).

Definition homePage : ServerHandler := λ _ _ sv,
  (Reply StatusOK (FileBody "web/index.html"), sv).

(** The routes registered in [func main]; the pattern ["/"] takes every
    path that no other pattern matches. *)
Definition serve : ServerHandler := λ now r sv,
  if decide (Path r = "/LICENSE") then withCORS giveLicense now r sv
  else if decide (Path r = "/api/v3/tunnel/create") then
    withCORS (withRateLimit createTunnel) now r sv
  else if decide (Path r = "/api/v3/tunnel/stream") then
    withCORS (withRateLimit streamTunnelContent) now r sv
  else if decide (Path r = "/api/v3/tunnel/get") then
    withCORS (withRateLimit getTunnelContent) now r sv
  else if decide (Path r = "/api/v3/tunnel/send") then
    withCORS (withRateLimit sendToTunnel) now r sv
  else withCORS homePage now r sv.

(** The two gates of [withRateLimit] as the request meets them. *)
Definition ipGate (now : Z) (r : Request) (sv : Server) : bool * RateLimiterStore :=
  getLimiterAllow now (callerKey r) (ipLimiters sv).

Definition tunnelGate (now : Z) (r : Request) (sv : Server) : bool * RateLimiterStore :=
  getLimiterAllow now (limitedTunnelID r) (tunnelLimiters sv).

Definition tooManyRequests (resp : Response) : Prop :=
  ∃ msg, resp = httpError msg StatusTooManyRequests.

(** ** Executions *)

(** What can happen to the process: a request is served, a streaming
    client goes away, or one of the two [cleanup] goroutines started by
    [func init] wakes up. *)
Inductive Event :=
| Serve (now : Z) (r : Request)
| Disconnect (tunnelId subChannel : string) (clientChan : chan)
| CleanupIP (now : Z)
| CleanupTunnelLimiters (now : Z).

Definition step (e : Event) (sv : Server) : Server :=
  match e with
  | Serve now r => (serve now r sv).2
  | Disconnect tunnelId subChannel clientChan =>
      mkServer (ipLimiters sv) (tunnelLimiters sv)
               (disconnect tunnelId subChannel clientChan (relay sv))
  | CleanupIP now => mkServer (cleanup now (ipLimiters sv)) (tunnelLimiters sv) (relay sv)
  | CleanupTunnelLimiters now =>
      mkServer (ipLimiters sv) (cleanup now (tunnelLimiters sv)) (relay sv)
  end.

Definition run (es : list Event) (sv : Server) : Server :=
  foldl (λ sv e, step e sv) sv es.

(** The process at start-up, with [seed] the state of the random source. *)
Definition initial (seed : Rng) : Server :=
  mkServer newStore newStore (mkState ∅ ∅ 0 [] seed).

Inductive reachable : Server → Prop :=
| reachable_initial seed : reachable (initial seed)
| reachable_step e sv : reachable sv → reachable (step e sv).

(** ** The core operations as requests *)

(** Both request forms the handlers accept: query parameters of a GET,
    or the fields of a POSTed JSON object. *)
Inductive Form := ViaGet | ViaPost.

Definition request (f : Form) (path : string) (fields : gmap string string) : Request :=
  match f with
  | ViaGet => mkRequest MethodGet path "192.0.2.1:4000" "" fields BodyNull
  | ViaPost => mkRequest MethodPost path "192.0.2.1:4000" "" ∅ (BodyObject fields)
  end.

Definition CreateTunnel (f : Form) (id : string) : State → Response * State :=
  createTunnel (request f "/api/v3/tunnel/create" {[ "id" := id ]}).

Definition Send (f : Form) (id subChannel content : string) : State → Response * State :=
  sendToTunnel (request f "/api/v3/tunnel/send"
                        (<["id" := id]> (<["subChannel" := subChannel]> {[ "content" := content ]}))).

Definition Get (f : Form) (id subChannel : string) : State → Response * State :=
  getTunnelContent (request f "/api/v3/tunnel/get" (<["id" := id]> {[ "subChannel" := subChannel ]})).

Definition Subscribe (f : Form) (id subChannel : string) : State → Response * State :=
  streamTunnelContent (request f "/api/v3/tunnel/stream"
                               (<["id" := id]> {[ "subChannel" := subChannel ]})).

(** The same operations with the sub-channel left out of the request. *)
Definition SendNoSubChannel (f : Form) (id content : string) : State → Response * State :=
  sendToTunnel (request f "/api/v3/tunnel/send" (<["id" := id]> {[ "content" := content ]})).

Definition GetNoSubChannel (f : Form) (id : string) : State → Response * State :=
  getTunnelContent (request f "/api/v3/tunnel/get" {[ "id" := id ]}).

Definition SubscribeNoSubChannel (f : Form) (id : string) : State → Response * State :=
  streamTunnelContent (request f "/api/v3/tunnel/stream" {[ "id" := id ]}).

(** The id and sub-channel that the POST arm of [sendToTunnel] ends up
    with after rewriting its [requestBodyJSON] in place. *)
Definition postSubChannel (m : gmap string string) : string :=
  if decide (mapGet m "subchannel" ≠ "") then mapGet m "subchannel"
  else if decide (mapGet m "subChannel" = "") then "main" else mapGet m "subChannel".

Definition postId (m : gmap string string) : string :=
  if decide (mapGet m "ID" ≠ "") then mapGet m "ID" else mapGet m "id".

(** The sub-channel a handler works on when the request names
    [subChannel]: ["main"] replaces the empty name. *)
Definition orMain (subChannel : string) : string :=
  if decide (subChannel = "") then "main" else subChannel.

(** ** Invariants of the relay *)

Definition wellFormed (s : State) : Prop :=
  tunnels s !! "" = None
  ∧ (∀ id tunnel subChannel content,
       tunnels s !! id = Some tunnel →
       SubChannels tunnel !! subChannel = Some content → content ≠ "")
  ∧ (∀ id subChannel, NoDup (sinks s id subChannel))
  ∧ (∀ id subChannel c, c ∈ sinks s id subChannel → c < nextChan s)
  ∧ (∀ e, e ∈ sent s → e.1 < nextChan s).

(** ** Further vocabulary *)

(** The relay after [subChannel] of [tunnel], registered under [id], has
    been overwritten with [content] and the content sent on every channel
    of the pair. *)
Definition written (id subChannel content : string) (tunnel : Tunnel) (s : State) : State :=
  mkState (<[id := mkTunnel (ID tunnel) (Content tunnel)
                            (<[subChannel := content]> (SubChannels tunnel))]> (tunnels s))
          (clients s) (nextChan s)
          (sent s ++ map (λ client, (client, content)) (sinks s id subChannel))
          (rng s).

(** The relay after a new channel has been appended to the list of a
    pair. *)
Definition attached (id subChannel : string) (s : State) : State :=
  mkState (tunnels s)
          (<[id := <[subChannel := sinks s id subChannel ++ [nextChan s]]>
                     (default ∅ (clients s !! id))]> (clients s))
          (S (nextChan s)) (sent s) (rng s).

(** Bookkeeping the handlers keep beyond [wellFormed]: a tunnel is
    registered under its own [ID] and its [Content] field stays empty; no
    channel is registered under an empty tunnel id or sub-channel name;
    and a channel belongs to one pair only. *)
Definition consistent (s : State) : Prop :=
  (∀ id tunnel, tunnels s !! id = Some tunnel → ID tunnel = id ∧ Content tunnel = "")
  ∧ (∀ id subChannel c, c ∈ sinks s id subChannel → id ≠ "" ∧ subChannel ≠ "")
  ∧ (∀ id subChannel id' subChannel' c,
       c ∈ sinks s id subChannel → c ∈ sinks s id' subChannel' →
       id = id' ∧ subChannel = subChannel').

(** The limiter that [getLimiter] hands out for a key: the one of the
    key's entry, or a new one. *)
Definition limiterFor (key : string) (store : RateLimiterStore) : Limiter :=
  match limiters store !! key with
  | Some entry => limiter entry
  | None => NewLimiter
  end.

(** A POST request with the given JSON object as body. *)
Definition post (path : string) (fields : gmap string string) : Request :=
  request ViaPost path fields.

End Relay.

(** ** A concrete environment

    Used to evaluate the handlers on concrete requests: a congruential
    random source reduced into range, and an integer token bucket with
    the program's constants (one token per 600ms, at most 10). *)

Record Bucket := mkBucket {
  tokens : Z;
  refilled : Z
}.

Definition bucketAllow (now : Z) (b : Bucket) : bool * Bucket :=
  let gained := ((now - refilled b) / 600000000)%Z in
  let available := Z.min 10 (tokens b + gained) in
  let refilled := if decide (gained = 0%Z) then refilled b else now in
  if decide (1 ≤ available)%Z
  then (true, mkBucket (available - 1) refilled)
  else (false, mkBucket available refilled).

Definition congruentialIntn (g n : nat) : nat * nat :=
  (g mod n, (g * 37 + 11) mod 1009).

Definition sampleEnv : Env := {|
  Rng := nat;
  Intn := congruentialIntn;
  Limiter := Bucket;
  NewLimiter := mkBucket 10 0;
  Allow := bucketAllow
|}.

Definition emptyRelay : @State sampleEnv := mkState ∅ ∅ 0 [] (5 : @Rng sampleEnv).

(** A busy process: tunnel ["A"] is created, ["hello"] is sent to its
    ["main"] sub-channel, then one client opens the stream of that pair. *)
Definition busyServer : @Server sampleEnv :=
  run [ Serve 0 (request ViaGet "/api/v3/tunnel/create" {[ "id" := "A" ]});
        Serve 1000000000
              (request ViaPost "/api/v3/tunnel/send"
                       (<["id" := "A"]> {[ "content" := "hello" ]}));
        Serve 2000000000 (request ViaGet "/api/v3/tunnel/stream" {[ "id" := "A" ]}) ]
      (@initial sampleEnv (5 : @Rng sampleEnv)).

(** Two hours, in nanoseconds: past any time-to-live of minutes, and past
    a wake-up of both limiter sweepers. *)
Definition twoHours : Z := 7200 * 1000000000.

(** Tunnel ["A"] is created at time 0 and both sweepers run two hours
    later. *)
Definition agedServer : @Server sampleEnv :=
  run [ Serve 0 (request ViaGet "/api/v3/tunnel/create" {[ "id" := "A" ]});
        CleanupIP twoHours;
        CleanupTunnelLimiters twoHours ]
      (@initial sampleEnv (5 : @Rng sampleEnv)).


(** A relay whose next generated id, ["F_;$?L"], is already taken. *)
Definition collidingRelay : @State sampleEnv :=
  mkState {[ "F_;$?L" := mkTunnel "F_;$?L" "" {[ "main" := "kept?" ]} ]}
          ∅ 0 [] (5 : @Rng sampleEnv).

(** A caller asking for tunnel ["A"], and the same request arriving
    through a proxy that names another caller. *)
Definition getA : Request := request ViaGet "/api/v3/tunnel/get" {[ "id" := "A" ]}.

Definition getAFrom (caller : string) : Request :=
  mkRequest MethodGet "/api/v3/tunnel/get" "192.0.2.1:4000" caller {[ "id" := "A" ]} BodyNull.

(** Ten requests in the same instant from one caller, none naming a
    tunnel: its bucket is empty afterwards. *)
Definition floodedByCaller : @Server sampleEnv :=
  run (replicate 10 (Serve 0 (request ViaGet "/api/v3/tunnel/create" ∅)))
      (@initial sampleEnv (5 : @Rng sampleEnv)).

(** Ten requests in the same instant for tunnel ["A"], each from a
    different caller: the tunnel's bucket is empty afterwards. *)
Definition floodedTunnel : @Server sampleEnv :=
  run (map (λ caller, Serve 0 (getAFrom caller))
           ["c0"; "c1"; "c2"; "c3"; "c4"; "c5"; "c6"; "c7"; "c8"; "c9"])
      busyServer.


Definition putRequest : Request :=
  mkRequest "PUT" "/api/v3/tunnel/get" "192.0.2.1:4000" "" {[ "id" := "A" ]} BodyNull.

Definition nullPost : Request :=
  mkRequest MethodPost "/api/v3/tunnel/send" "192.0.2.1:4000" "" ∅ BodyNull.


Definition bothSpellings : gmap string string :=
  <["id" := "A"]> (<["content" := "x"]> (<["subchannel" := "a"]> {[ "subChannel" := "b" ]})).

(** A limiter store in which ["caller"] was last seen at time 0. *)
Definition usedStore : @RateLimiterStore sampleEnv :=
  (@getLimiterAllow sampleEnv 0 "caller" (@newStore sampleEnv)).2.

(** * Properties *)

Section Properties.

Context {env : Env}.

Implicit Types (s : State) (sv : Server) (r : Request) (f : Form).
Implicit Types (id subChannel content : string) (c : chan).

(** ** Reading Go maps *)

Lemma mapGet_insert (m : gmap string string) k v : mapGet (<[k := v]> m) k = v.
Proof. unfold mapGet. by rewrite lookup_insert_eq. Qed.

Lemma mapGet_insert_ne (m : gmap string string) k k' v :
  k ≠ k' → mapGet (<[k := v]> m) k' = mapGet m k'.
Proof. intros Hne. unfold mapGet. by rewrite lookup_insert_ne. Qed.

Lemma mapGet_singleton k v : mapGet {[ k := v ]} k = v.
Proof. unfold mapGet. by rewrite lookup_singleton_eq. Qed.

Lemma mapGet_singleton_ne k k' v : k ≠ k' → mapGet {[ k := v ]} k' = "".
Proof. intros Hne. unfold mapGet. by rewrite lookup_singleton_ne. Qed.

Lemma mapGet_empty k : mapGet ∅ k = "".
Proof. done. Qed.

Lemma mapGet_Some (m : gmap string string) k v : m !! k = Some v → mapGet m k = v.
Proof. unfold mapGet. by intros ->. Qed.

Lemma mapGet_None (m : gmap string string) k : m !! k = None → mapGet m k = "".
Proof. unfold mapGet. by intros ->. Qed.

Ltac gomap :=
  repeat first
    [ rewrite mapGet_insert
    | rewrite mapGet_insert_ne by done
    | rewrite mapGet_singleton
    | rewrite mapGet_singleton_ne by done
    | rewrite mapGet_empty ].

(** ** The handlers on the two request forms *)

Lemma postSubChannel_nonempty m : postSubChannel m ≠ "".
Proof. unfold postSubChannel. repeat case_decide; done. Qed.

Lemma orMain_nonempty subChannel : orMain subChannel ≠ "".
Proof. unfold orMain. case_decide; done. Qed.


Lemma sendToTunnel_post r s m :
  Method r = MethodPost → Body r = BodyObject m →
  sendToTunnel r s =
    if decide (postId m = "" ∨ mapGet m "content" = "")
    then (httpError "The request body must contain a valid 'id', 'subChannel' and 'content' field"
                    StatusBadRequest, s)
    else writeAndBroadcast (postId m) (postSubChannel m) (mapGet m "content") s.
Proof.
  intros Hm Hb. unfold sendToTunnel. rewrite Hb, decide_True by done. cbv zeta.
  pose proof (postSubChannel_nonempty m) as Hsub.
  unfold postId, postSubChannel in *.
  destruct (decide (mapGet m "subchannel" ≠ "")) as [H1|H1];
  gomap; [rewrite (decide_False (P := mapGet m "subchannel" = "")) by done|];
  (destruct (decide (mapGet m "subChannel" = "")) as [H2|H2]);
  gomap; (destruct (decide (mapGet m "ID" ≠ "")) as [H3|H3]); gomap;
  repeat case_decide; try done; intuition congruence.
Qed.

Lemma sendToTunnel_post_other r s :
  Method r = MethodPost → (∀ m, Body r ≠ BodyObject m) → (sendToTunnel r s).2 = s.
Proof.
  intros Hm Hb. unfold sendToTunnel. rewrite decide_True by done.
  destruct (Body r) as [| | |m]; [done|done|done|by destruct (Hb m)].
Qed.

Lemma sendToTunnel_get r s :
  Method r = MethodGet →
  sendToTunnel r s =
    let id := if decide (queryGet r "ID" ≠ "") then queryGet r "ID" else queryGet r "id" in
    let subChannel :=
      if decide (queryGet r "subchannel" ≠ "") then queryGet r "subchannel"
      else queryGet r "subChannel" in
    if decide (id = "" ∨ subChannel = "" ∨ queryGet r "content" = "")
    then (httpError "The request must contain a valid 'id', 'subChannel' and 'content' parameters"
                    StatusBadRequest, s)
    else writeAndBroadcast id subChannel (queryGet r "content") s.
Proof. intros Hm. unfold sendToTunnel. rewrite Hm. done. Qed.

Lemma Send_get id subChannel content s :
  Send ViaGet id subChannel content s =
    if decide (id = "" ∨ subChannel = "" ∨ content = "")
    then (httpError "The request must contain a valid 'id', 'subChannel' and 'content' parameters"
                    StatusBadRequest, s)
    else writeAndBroadcast id subChannel content s.
Proof.
  unfold Send. rewrite sendToTunnel_get by done.
  unfold queryGet, request; simpl. gomap.
  rewrite !(decide_False (P := "" ≠ "")) by (intros H; by apply H). done.
Qed.

Lemma Send_post id subChannel content s :
  Send ViaPost id subChannel content s =
    if decide (id = "" ∨ content = "")
    then (httpError "The request body must contain a valid 'id', 'subChannel' and 'content' field"
                    StatusBadRequest, s)
    else writeAndBroadcast id (orMain subChannel) content s.
Proof.
  unfold Send. erewrite sendToTunnel_post by done.
  unfold postId, postSubChannel, orMain. gomap.
  rewrite !(decide_False (P := "" ≠ "")) by (intros H; by apply H). done.
Qed.

Lemma SendNoSubChannel_post id content s :
  SendNoSubChannel ViaPost id content s = Send ViaPost id "main" content s.
Proof.
  rewrite Send_post. unfold SendNoSubChannel. erewrite sendToTunnel_post by done.
  unfold postId, postSubChannel, orMain. gomap.
  rewrite !(decide_False (P := "" ≠ "")) by (intros H; by apply H).
  rewrite (decide_True (P := "" = "")) by done. done.
Qed.

Lemma SendNoSubChannel_get id content s :
  SendNoSubChannel ViaGet id content s =
    (httpError "The request must contain a valid 'id', 'subChannel' and 'content' parameters"
               StatusBadRequest, s).
Proof.
  unfold SendNoSubChannel. rewrite sendToTunnel_get by done.
  unfold queryGet, request; simpl. gomap.
  rewrite !(decide_False (P := "" ≠ "")) by (intros H; by apply H).
  rewrite decide_True by (right; by left). done.
Qed.

Lemma readTarget_request f path id subChannel :
  readTarget (request f path (<["id" := id]> {[ "subChannel" := subChannel ]}))
  = inr (id, subChannel).
Proof.
  destruct f; unfold readTarget, request, queryGet; simpl; gomap.
  - rewrite !(decide_False (P := "" ≠ "")) by (intros H; by apply H). done.
  - rewrite !(decide_False (P := "" ≠ "")) by (intros H; by apply H).
    repeat case_decide; try done; repeat f_equal; destruct (decide (id = "")), (decide (subChannel = ""));
      congruence.
Qed.

Lemma readTarget_request_id f path id :
  readTarget (request f path {[ "id" := id ]}) = inr (id, "").
Proof.
  destruct f; unfold readTarget, request, queryGet; simpl; gomap.
  - rewrite !(decide_False (P := "" ≠ "")) by (intros H; by apply H). done.
  - rewrite !(decide_False (P := "" ≠ "")) by (intros H; by apply H).
    case_decide; try done. f_equal. f_equal. destruct (decide (id = "")); congruence.
Qed.

Lemma Get_eq f id subChannel s :
  Get f id subChannel s =
    if decide (id = "") then (missingId, s)
    else match tunnels s !! id with
         | None => (NotFound, s)
         | Some tunnel =>
             if decide (mapGet (SubChannels tunnel) (orMain subChannel) ≠ "")
             then (ContentOf (mapGet (SubChannels tunnel) (orMain subChannel)), s)
             else (Empty, s)
         end.
Proof. unfold Get, getTunnelContent. by rewrite readTarget_request. Qed.

Lemma getTunnelContent_state r s : (getTunnelContent r s).2 = s.
Proof.
  unfold getTunnelContent. destruct (readTarget r) as [?|[tunnelId subChannel]]; [done|].
  simpl. case_decide; [done|]. destruct (tunnels s !! tunnelId); [|done].
  case_decide; done.
Qed.

(** ** The generated identifier *)

Lemma generateRandomID_draws amount g :
  (generateRandomID amount g).1 = idOfDraws (drawsOf amount g).
Proof.
  revert g. induction amount as [|n IH]; intros g; [done|].
  cbn [generateRandomID drawsOf].
  destruct (Intn g (String.length charset)) as [i g1].
  specialize (IH g1). destruct (generateRandomID n g1) as [rest g2].
  cbn [fst idOfDraws] in *. by f_equal.
Qed.

Lemma drawsOf_length amount g : List.length (drawsOf amount g) = amount.
Proof.
  revert g. induction amount as [|n IH]; intros g; [done|].
  cbn [drawsOf]. destruct (Intn g (String.length charset)) as [i g1].
  cbn [List.length]. by rewrite IH.
Qed.

Lemma idOfDraws_length draws : String.length (idOfDraws draws) = List.length draws.
Proof. induction draws as [|i rest IH]; simpl; congruence. Qed.

Lemma generateRandomID_length amount g :
  String.length (generateRandomID amount g).1 = amount.
Proof. by rewrite generateRandomID_draws, idOfDraws_length, drawsOf_length. Qed.

Lemma generateRandomID_nonempty n g : (generateRandomID (S n) g).1 ≠ "".
Proof.
  intros Heq. pose proof (generateRandomID_length (S n) g) as Hlen.
  rewrite Heq in Hlen. discriminate.
Qed.

(** ** The subscriber registry *)

Lemma sinks_update (cl : gmap string (gmap string (list chan))) id subChannel l id' subChannel' :
  default [] (<[id := <[subChannel := l]> (default ∅ (cl !! id))]> cl !! id'
              ≫= λ subs, subs !! subChannel')
  = if decide (id' = id ∧ subChannel' = subChannel) then l
    else default [] (cl !! id' ≫= λ subs, subs !! subChannel').
Proof.
  destruct (decide (id' = id)) as [->|Hid].
  - rewrite lookup_insert_eq. simpl.
    destruct (decide (subChannel' = subChannel)) as [->|Hsub].
    + rewrite lookup_insert_eq. by rewrite decide_True.
    + rewrite lookup_insert_ne by done. rewrite decide_False by intuition.
      destruct (cl !! id); done.
  - rewrite lookup_insert_ne by done. by rewrite decide_False by intuition.
Qed.

Lemma sinks_alt s id subChannel :
  default [] (default ∅ (clients s !! id) !! subChannel) = sinks s id subChannel.
Proof. unfold sinks. destruct (clients s !! id); done. Qed.

Lemma removeClient_subset c l x : x ∈ removeClient c l → x ∈ l.
Proof.
  induction l as [|y l IH]; simpl; [done|].
  case_decide; [by right|]. rewrite !elem_of_cons. intuition.
Qed.

Lemma removeClient_NoDup c l : NoDup l → NoDup (removeClient c l).
Proof.
  induction 1 as [|y l Hy Hl IH]; simpl; [constructor|].
  case_decide; [done|]. constructor; [|done].
  intros Hin. by apply Hy, (removeClient_subset c).
Qed.

Lemma removeClient_gone c l : NoDup l → c ∉ removeClient c l.
Proof.
  induction 1 as [|y l Hy Hl IH]; simpl; [by apply not_elem_of_nil|].
  case_decide; [by subst|]. rewrite elem_of_cons. intuition.
Qed.

(** ** What a channel has carried *)

Lemma received_app s c content (l : list chan) :
  (filter (λ e : chan * string, e.1 = c)
          (sent s ++ map (λ client, (client, content)) l)).*2
  = received s c ++ replicate (List.length (filter (λ client, client = c) l)) content.
Proof.
  unfold received. rewrite filter_app, fmap_app. f_equal.
  induction l as [|y l IH]; [done|].
  cbn [map]. rewrite !filter_cons. cbn [fst]. case_decide; cbn; by rewrite IH.
Qed.

Lemma filter_eq_not_in (l : list chan) c :
  c ∉ l → List.length (filter (λ client, client = c) l) = 0.
Proof.
  induction l as [|y l IH]; intros Hnot; [done|].
  apply not_elem_of_cons in Hnot as [Hne Hnot].
  rewrite filter_cons. rewrite decide_False by done. by apply IH.
Qed.

Lemma filter_eq_NoDup_in (l : list chan) c :
  NoDup l → c ∈ l → List.length (filter (λ client, client = c) l) = 1.
Proof.
  induction 1 as [|y l Hy Hl IH]; intros Hin; [by apply elem_of_nil in Hin|].
  rewrite filter_cons. case_decide as Heq.
  - subst y. cbn. f_equal. by apply filter_eq_not_in.
  - apply elem_of_cons in Hin as [->|Hin]; [done|]. by apply IH.
Qed.

(** ** The relay stays well formed *)

Lemma installTunnel_wellFormed id s :
  id ≠ "" → wellFormed s → wellFormed (installTunnel id s).
Proof.
  intros Hid (Hkey & Hval & Hdup & Hlt & Hsent).
  split; [|split; [|done]]; cbn.
  - by rewrite lookup_insert_ne.
  - intros id' tunnel subChannel content Hlook Hsub.
    destruct (decide (id = id')) as [<-|Hne].
    + rewrite lookup_insert_eq in Hlook. injection Hlook as <-. done.
    + rewrite lookup_insert_ne in Hlook by done. eauto.
Qed.

Lemma wellFormed_rng s g :
  wellFormed s → wellFormed (mkState (tunnels s) (clients s) (nextChan s) (sent s) g).
Proof. done. Qed.

Lemma createTunnel_wellFormed r s : wellFormed s → wellFormed (createTunnel r s).2.
Proof.
  intros Hwf. unfold createTunnel.
  case_decide; [destruct (Body r); try done; case_decide; [done|]; by apply installTunnel_wellFormed|].
  case_decide; [|done].
  case_decide; [|by apply installTunnel_wellFormed].
  pose proof (generateRandomID_nonempty 5 (rng s)) as Hne.
  destruct (generateRandomID 6 (rng s)) as [tunnelId g].
  by apply installTunnel_wellFormed; [|apply wellFormed_rng].
Qed.

Lemma writeAndBroadcast_wellFormed id subChannel content s :
  id ≠ "" → content ≠ "" → wellFormed s →
  wellFormed (writeAndBroadcast id subChannel content s).2.
Proof.
  intros Hid Hc (Hkey & Hval & Hdup & Hlt & Hsent). unfold writeAndBroadcast.
  destruct (tunnels s !! id) as [tunnel|] eqn:Htun; [|done].
  split; [|split; [|split; [done|split; [done|]]]]; cbn.
  - by rewrite lookup_insert_ne.
  - intros id' tunnel' subChannel' content' Hlook Hsub.
    destruct (decide (id = id')) as [<-|Hne].
    + rewrite lookup_insert_eq in Hlook. injection Hlook as <-. cbn in Hsub.
      destruct (decide (subChannel = subChannel')) as [<-|Hne].
      * rewrite lookup_insert_eq in Hsub. congruence.
      * rewrite lookup_insert_ne in Hsub by done. eauto.
    + rewrite lookup_insert_ne in Hlook by done. eauto.
  - intros e [He|He]%elem_of_app; [by apply Hsent|].
    apply list_elem_of_In, in_map_iff in He as (client & <- & Hin).
    cbn. apply (Hlt id subChannel). by apply list_elem_of_In.
Qed.

Lemma sendToTunnel_wellFormed r s : wellFormed s → wellFormed (sendToTunnel r s).2.
Proof.
  intros Hwf. destruct (decide (Method r = MethodPost)) as [Hpost|Hpost].
  - destruct (Body r) as [| | |m] eqn:Hbody;
      [rewrite sendToTunnel_post_other
         by (done || (intros m'; rewrite Hbody; discriminate)); done ..|].
    rewrite (sendToTunnel_post r s m) by done.
    case_decide as Hbad; [done|].
    apply writeAndBroadcast_wellFormed; [intuition..|done].
  - destruct (decide (Method r = MethodGet)) as [Hget|Hget].
    + rewrite sendToTunnel_get by done. cbv zeta.
      case_decide as Hbad; [done|].
      apply writeAndBroadcast_wellFormed; [intuition..|done].
    + unfold sendToTunnel. by rewrite !decide_False by done.
Qed.

Lemma streamTunnelContent_wellFormed r s :
  wellFormed s → wellFormed (streamTunnelContent r s).2.
Proof.
  intros Hwf. unfold streamTunnelContent.
  destruct (readTarget r) as [?|[tunnelId subChannel]]; [done|].
  cbv zeta. case_decide; [done|]. destruct (tunnels s !! tunnelId); [|done].
  destruct Hwf as (Hkey & Hval & Hdup & Hlt & Hsent).
  split; [done|split; [done|]]. cbn. rewrite sinks_alt. unfold sinks in *. cbn.
  split; [|split].
  - intros id' subChannel'. rewrite sinks_update. case_decide as Heq; [|done].
    apply NoDup_app. split; [done|]. split; [|apply NoDup_singleton].
    intros x Hx ->%list_elem_of_singleton.
    apply Hlt in Hx. lia.
  - intros id' subChannel' c. rewrite sinks_update. case_decide as Heq.
    + intros [Hc| ->%list_elem_of_singleton]%elem_of_app; [|lia].
      apply Hlt in Hc. lia.
    + intros Hc%Hlt. lia.
  - intros e He%Hsent. lia.
Qed.

Lemma disconnect_wellFormed tunnelId subChannel c s :
  wellFormed s → wellFormed (disconnect tunnelId subChannel c s).
Proof.
  intros Hwf. unfold disconnect. case_decide as Hin; [|done].
  destruct Hwf as (Hkey & Hval & Hdup & Hlt & Hsent).
  split; [done|split; [done|]]. unfold sinks in *. cbn.
  split; [|split; [|done]].
  - intros id' subChannel'. rewrite sinks_update. case_decide; [|done].
    by apply removeClient_NoDup.
  - intros id' subChannel' x. rewrite sinks_update. case_decide; [|by apply Hlt].
    intros Hx%removeClient_subset. by apply Hlt in Hx.
Qed.

(** ** The middleware never touches the relay itself *)

Lemma withRateLimit_relay next now r sv :
  relay (withRateLimit next now r sv).2 = relay sv
  ∨ relay (withRateLimit next now r sv).2 = (next r (relay sv)).2.
Proof.
  unfold withRateLimit.
  destruct (getLimiterAllow now (callerKey r) (ipLimiters sv)) as [[] ipStore];
    cbn [negb]; [|by left].
  case_decide.
  - destruct (getLimiterAllow now (limitedTunnelID r) (tunnelLimiters sv)) as [[] tunnelStore];
      cbn [negb]; [|by left].
    destruct (next r (relay sv)); by right.
  - destruct (next r (relay sv)); by right.
Qed.

Lemma withCORS_relay (handler : ServerHandler) now r sv :
  relay (withCORS handler now r sv).2 = relay sv
  ∨ withCORS handler now r sv = handler now r sv.
Proof. unfold withCORS. case_decide; [by left|by right]. Qed.

Lemma serve_relay now r sv :
  relay (serve now r sv).2 = relay sv
  ∨ ∃ next, next ∈ [createTunnel; streamTunnelContent; getTunnelContent; sendToTunnel]
            ∧ relay (serve now r sv).2 = (next r (relay sv)).2.
Proof.
  unfold serve.
  repeat case_decide;
    match goal with
    | |- context [withCORS ?h now r sv] =>
        destruct (withCORS_relay h now r sv) as [Hsame| ->]; [by left|]
    end;
    try (by left);
    match goal with
    | |- context [withRateLimit ?next now r sv] =>
        destruct (withRateLimit_relay next now r sv) as [Hsame|Hnext];
          [by left|right; exists next; split; [set_solver|done]]
    end.
Qed.

Lemma serve_wellFormed now r sv :
  wellFormed (relay sv) → wellFormed (relay (serve now r sv).2).
Proof.
  intros Hwf. destruct (serve_relay now r sv) as [->|(next & Hin & ->)]; [done|].
  repeat (apply elem_of_cons in Hin as [->|Hin]).
  - by apply createTunnel_wellFormed.
  - by apply streamTunnelContent_wellFormed.
  - by rewrite getTunnelContent_state.
  - by apply sendToTunnel_wellFormed.
  - by apply elem_of_nil in Hin.
Qed.

Lemma step_wellFormed e sv : wellFormed (relay sv) → wellFormed (relay (step e sv)).
Proof.
  intros Hwf. destruct e; cbn; [by apply serve_wellFormed|by apply disconnect_wellFormed|done..].
Qed.

Lemma reachable_wellFormed sv : reachable sv → wellFormed (relay sv).
Proof.
  induction 1 as [seed|e sv Hreach IH]; [|by apply step_wellFormed].
  repeat split; cbn; try done.
  - intros id subChannel. unfold sinks. cbn. rewrite lookup_empty. apply NoDup_nil_2.
  - intros id subChannel c. unfold sinks. cbn. rewrite lookup_empty.
    by intros ?%elem_of_nil.
  - by intros e ?%elem_of_nil.
Qed.


(** ** Writing and reading back *)

Lemma writeAndBroadcast_Some id subChannel content s tunnel :
  tunnels s !! id = Some tunnel →
  writeAndBroadcast id subChannel content s =
    (Ok, mkState (<[id := mkTunnel (ID tunnel) (Content tunnel)
                                   (<[subChannel := content]> (SubChannels tunnel))]>
                    (tunnels s))
                 (clients s) (nextChan s)
                 (sent s ++ map (λ client, (client, content)) (sinks s id subChannel))
                 (rng s)).
Proof. intros Htun. unfold writeAndBroadcast. by rewrite Htun. Qed.

Lemma writeAndBroadcast_None id subChannel content s :
  tunnels s !! id = None → writeAndBroadcast id subChannel content s = (NotFound, s).
Proof. intros Htun. unfold writeAndBroadcast. by rewrite Htun. Qed.

Lemma orMain_id subChannel : subChannel ≠ "" → orMain subChannel = subChannel.
Proof. intros Hne. unfold orMain. by rewrite decide_False. Qed.

Lemma Send_valid f id subChannel content s :
  id ≠ "" → subChannel ≠ "" → content ≠ "" →
  Send f id subChannel content s = writeAndBroadcast id subChannel content s.
Proof.
  intros Hid Hsub Hc. destruct f.
  - rewrite Send_get. by rewrite decide_False by intuition.
  - rewrite Send_post, orMain_id by done. by rewrite decide_False by intuition.
Qed.

Lemma Send_state_absent f id subChannel content s :
  tunnels s !! id = None → (Send f id subChannel content s).2 = s.
Proof.
  intros Htun. destruct f; [rewrite Send_get|rewrite Send_post];
    (case_decide; [done|]); by rewrite writeAndBroadcast_None.
Qed.

Lemma Send_empty_content f id subChannel s :
  isValidationError (Send f id subChannel "" s).1 ∧ (Send f id subChannel "" s).2 = s.
Proof.
  destruct f; [rewrite Send_get|rewrite Send_post];
    (rewrite decide_True by intuition); (split; [by eexists|done]).
Qed.


Lemma CreateTunnel_named f id s :
  id ≠ "" → CreateTunnel f id s = (Created id, installTunnel id s).
Proof.
  intros Hid. destruct f; unfold CreateTunnel, createTunnel, request, queryGet;
    cbn [Method Query Body].
  - rewrite decide_False by done. rewrite decide_True by done.
    gomap. by rewrite decide_False.
  - rewrite decide_True by done. gomap. by rewrite decide_False.
Qed.

Lemma CreateTunnel_generated s :
  CreateTunnel ViaGet "" s =
    (Created (generateRandomID 6 (rng s)).1,
     installTunnel (generateRandomID 6 (rng s)).1
       (mkState (tunnels s) (clients s) (nextChan s) (sent s) (generateRandomID 6 (rng s)).2)).
Proof.
  unfold CreateTunnel, createTunnel, request, queryGet.
  cbn [Method Query Body]. rewrite decide_False by done. rewrite decide_True by done.
  gomap. rewrite decide_True by done. by destruct (generateRandomID 6 (rng s)).
Qed.



(** ** Channels are numbered in order of creation *)








Lemma Subscribe_eq f id subChannel s :
  Subscribe f id subChannel s =
    if decide (id = "") then (missingId, s)
    else match tunnels s !! id with
         | None => (NotFound, s)
         | Some _ =>
             (Reply StatusOK (EventStream (nextChan s)),
              mkState (tunnels s)
                      (<[id := <[orMain subChannel := sinks s id (orMain subChannel) ++ [nextChan s]]>
                                 (default ∅ (clients s !! id))]> (clients s))
                      (S (nextChan s)) (sent s) (rng s))
         end.
Proof.
  unfold Subscribe, streamTunnelContent. rewrite readTarget_request. cbv zeta.
  fold (orMain subChannel). case_decide; [done|].
  destruct (tunnels s !! id); [|done]. by rewrite sinks_alt.
Qed.



(** ** The claims *)




(** C4, as amended.  For every id absent from the tunnel registry, a
    [Send] leaves the whole relay (tunnel registry, subscriber registry,
    delivery log) exactly as it was; with non-empty id, sub-channel and
    content it returns NotFound, and with an empty id or empty content it
    is a validation error. *)
Theorem C4_send_to_absent_tunnel s f id subChannel content :
  tunnels s !! id = None →
  (Send f id subChannel content s).2 = s
  ∧ (id ≠ "" → subChannel ≠ "" → content ≠ "" →
       (Send f id subChannel content s).1 = NotFound)
  ∧ (id = "" ∨ content = "" → isValidationError (Send f id subChannel content s).1).
Proof.
  intros Htun. split; [by apply Send_state_absent|]. split.
  - intros Hid Hsub Hc. rewrite Send_valid by done. by rewrite writeAndBroadcast_None.
  - intros Hbad. destruct f; [rewrite Send_get|rewrite Send_post];
      (rewrite decide_True by intuition); by eexists.
Qed.

(** ** Admission control *)

Lemma withRateLimit_ip_denied next now r sv :
  (ipGate now r sv).1 = false →
  withRateLimit next now r sv =
    (httpError "IP rate limit exceeded" StatusTooManyRequests,
     mkServer (ipGate now r sv).2 (tunnelLimiters sv) (relay sv)).
Proof.
  unfold ipGate, withRateLimit.
  destruct (getLimiterAllow now (callerKey r) (ipLimiters sv)) as [ok ipStore].
  cbn [fst snd]. by intros ->.
Qed.

Lemma withRateLimit_no_tunnel next now r sv :
  (ipGate now r sv).1 = true → limitedTunnelID r = "" →
  withRateLimit next now r sv =
    ((next r (relay sv)).1,
     mkServer (ipGate now r sv).2 (tunnelLimiters sv) (next r (relay sv)).2).
Proof.
  unfold ipGate, withRateLimit.
  destruct (getLimiterAllow now (callerKey r) (ipLimiters sv)) as [ok ipStore].
  cbn [fst snd]. intros -> Hid. cbn [negb]. rewrite decide_False by (intros H; by apply H).
  by destruct (next r (relay sv)).
Qed.

Lemma withRateLimit_tunnel_denied next now r sv :
  (ipGate now r sv).1 = true → limitedTunnelID r ≠ "" → (tunnelGate now r sv).1 = false →
  withRateLimit next now r sv =
    (httpError "Tunnel rate limit exceeded" StatusTooManyRequests,
     mkServer (ipGate now r sv).2 (tunnelGate now r sv).2 (relay sv)).
Proof.
  unfold ipGate, tunnelGate, withRateLimit.
  destruct (getLimiterAllow now (callerKey r) (ipLimiters sv)) as [ok ipStore].
  cbn [fst snd]. intros -> Hid. cbn [negb]. rewrite decide_True by done.
  destruct (getLimiterAllow now (limitedTunnelID r) (tunnelLimiters sv)) as [ok tunnelStore].
  cbn [fst snd]. by intros ->.
Qed.

Lemma withRateLimit_admitted next now r sv :
  (ipGate now r sv).1 = true → limitedTunnelID r ≠ "" → (tunnelGate now r sv).1 = true →
  withRateLimit next now r sv =
    ((next r (relay sv)).1,
     mkServer (ipGate now r sv).2 (tunnelGate now r sv).2 (next r (relay sv)).2).
Proof.
  unfold ipGate, tunnelGate, withRateLimit.
  destruct (getLimiterAllow now (callerKey r) (ipLimiters sv)) as [ok ipStore].
  cbn [fst snd]. intros -> Hid. cbn [negb]. rewrite decide_True by done.
  destruct (getLimiterAllow now (limitedTunnelID r) (tunnelLimiters sv)) as [ok tunnelStore].
  cbn [fst snd]. intros ->. cbn [negb]. by destruct (next r (relay sv)).
Qed.

(** C5.  [withRateLimit] consults the caller-identity gate first.  If it
    denies, the answer is 429 and neither the tunnel gate nor the relay is
    touched.  Otherwise the tunnel gate is consulted exactly when a tunnel
    id is resolvable from the request; if it denies, the answer is 429
    and the relay is untouched; in the remaining cases the wrapped handler
    runs on the untouched relay. *)
Theorem C5_gates_in_order_and_rejections_mutate_nothing next now r sv :
  ipLimiters (withRateLimit next now r sv).2 = (ipGate now r sv).2
  ∧ ((ipGate now r sv).1 = false →
       tooManyRequests (withRateLimit next now r sv).1
       ∧ tunnelLimiters (withRateLimit next now r sv).2 = tunnelLimiters sv
       ∧ relay (withRateLimit next now r sv).2 = relay sv)
  ∧ ((ipGate now r sv).1 = true → limitedTunnelID r = "" →
       tunnelLimiters (withRateLimit next now r sv).2 = tunnelLimiters sv
       ∧ (withRateLimit next now r sv).1 = (next r (relay sv)).1
       ∧ relay (withRateLimit next now r sv).2 = (next r (relay sv)).2)
  ∧ ((ipGate now r sv).1 = true → limitedTunnelID r ≠ "" →
       tunnelLimiters (withRateLimit next now r sv).2 = (tunnelGate now r sv).2
       ∧ ((tunnelGate now r sv).1 = false →
            tooManyRequests (withRateLimit next now r sv).1
            ∧ relay (withRateLimit next now r sv).2 = relay sv)
       ∧ ((tunnelGate now r sv).1 = true →
            (withRateLimit next now r sv).1 = (next r (relay sv)).1
            ∧ relay (withRateLimit next now r sv).2 = (next r (relay sv)).2)).
Proof.
  split; [|split; [|split]].
  - destruct (ipGate now r sv).1 eqn:Hip.
    + destruct (decide (limitedTunnelID r = "")) as [Hid|Hid].
      * by rewrite withRateLimit_no_tunnel.
      * destruct (tunnelGate now r sv).1 eqn:Htun.
        -- by rewrite withRateLimit_admitted.
        -- by rewrite withRateLimit_tunnel_denied.
    + by rewrite withRateLimit_ip_denied.
  - intros Hip. rewrite withRateLimit_ip_denied by done.
    split; [by eexists|done].
  - intros Hip Hid. by rewrite withRateLimit_no_tunnel.
  - intros Hip Hid. split; [|split].
    + destruct (tunnelGate now r sv).1 eqn:Htun.
      * by rewrite withRateLimit_admitted.
      * by rewrite withRateLimit_tunnel_denied.
    + intros Htun. rewrite withRateLimit_tunnel_denied by done.
      split; [by eexists|done].
    + intros Htun. by rewrite withRateLimit_admitted.
Qed.

(** ** Nothing removes a tunnel *)

Lemma installTunnel_keeps id' s id :
  is_Some (tunnels s !! id) → is_Some (tunnels (installTunnel id' s) !! id).
Proof.
  intros Hsome. cbn. destruct (decide (id' = id)) as [->|Hne].
  - rewrite lookup_insert_eq. by eexists.
  - by rewrite lookup_insert_ne.
Qed.

Lemma createTunnel_keeps r s id :
  is_Some (tunnels s !! id) → is_Some (tunnels (createTunnel r s).2 !! id).
Proof.
  intros Hsome. unfold createTunnel.
  case_decide; [destruct (Body r); try done; case_decide; [done|]; by apply installTunnel_keeps|].
  case_decide; [|done].
  case_decide; [|by apply installTunnel_keeps].
  destruct (generateRandomID 6 (rng s)) as [tunnelId g]. by apply installTunnel_keeps.
Qed.

Lemma writeAndBroadcast_keeps id' subChannel content s id :
  is_Some (tunnels s !! id) →
  is_Some (tunnels (writeAndBroadcast id' subChannel content s).2 !! id).
Proof.
  intros Hsome. unfold writeAndBroadcast.
  destruct (tunnels s !! id') as [tunnel|]; [|done].
  cbn. destruct (decide (id' = id)) as [->|Hne].
  - rewrite lookup_insert_eq. by eexists.
  - by rewrite lookup_insert_ne.
Qed.

Lemma sendToTunnel_keeps r s id :
  is_Some (tunnels s !! id) → is_Some (tunnels (sendToTunnel r s).2 !! id).
Proof.
  intros Hsome. destruct (decide (Method r = MethodPost)) as [Hpost|Hpost].
  - destruct (Body r) as [| | |m] eqn:Hbody;
      [rewrite sendToTunnel_post_other
         by (done || (intros m'; rewrite Hbody; discriminate)); done ..|].
    rewrite (sendToTunnel_post r s m) by done.
    case_decide; [done|]. by apply writeAndBroadcast_keeps.
  - destruct (decide (Method r = MethodGet)) as [Hget|Hget].
    + rewrite sendToTunnel_get by done. cbv zeta.
      case_decide; [done|]. by apply writeAndBroadcast_keeps.
    + unfold sendToTunnel. by rewrite !decide_False by done.
Qed.

Lemma streamTunnelContent_tunnels r s : tunnels (streamTunnelContent r s).2 = tunnels s.
Proof.
  unfold streamTunnelContent.
  destruct (readTarget r) as [?|[tunnelId subChannel]]; [done|].
  cbv zeta. case_decide; [done|]. by destruct (tunnels s !! tunnelId).
Qed.

Lemma disconnect_tunnels tunnelId subChannel c s :
  tunnels (disconnect tunnelId subChannel c s) = tunnels s.
Proof. unfold disconnect. by case_decide. Qed.

Lemma step_keeps e sv id :
  is_Some (tunnels (relay sv) !! id) → is_Some (tunnels (relay (step e sv)) !! id).
Proof.
  intros Hsome.
  destruct e as [now r| | |]; cbn; [|by rewrite disconnect_tunnels|done..].
  destruct (serve_relay now r sv) as [->|(next & Hin & ->)]; [done|].
  repeat (apply elem_of_cons in Hin as [->|Hin]).
  - by apply createTunnel_keeps.
  - by rewrite streamTunnelContent_tunnels.
  - by rewrite getTunnelContent_state.
  - by apply sendToTunnel_keeps.
  - by apply elem_of_nil in Hin.
Qed.

Lemma run_keeps es sv id :
  is_Some (tunnels (relay sv) !! id) → is_Some (tunnels (relay (run es sv)) !! id).
Proof.
  revert sv. induction es as [|e es IH]; intros sv Hsome; [done|].
  cbn. apply IH. by apply step_keeps.
Qed.

Lemma cleanup_lookup now store key entry :
  limiters (cleanup now store) !! key = Some entry
  ↔ limiters store !! key = Some entry ∧ ¬ (cleanupFreq store < now - lastSeen entry)%Z.
Proof. unfold cleanup. cbn [limiters]. by rewrite map_lookup_filter_Some. Qed.

Lemma getLimiterAllow_cleanupFreq now key store :
  cleanupFreq (getLimiterAllow now key store).2 = cleanupFreq store.
Proof.
  unfold getLimiterAllow, getLimiter.
  by destruct (Allow now _).
Qed.

Lemma withRateLimit_cleanupFreq next now r sv :
  cleanupFreq (ipLimiters (withRateLimit next now r sv).2) = cleanupFreq (ipLimiters sv)
  ∧ cleanupFreq (tunnelLimiters (withRateLimit next now r sv).2)
    = cleanupFreq (tunnelLimiters sv).
Proof.
  pose proof (getLimiterAllow_cleanupFreq now (callerKey r) (ipLimiters sv)) as Hip.
  pose proof (getLimiterAllow_cleanupFreq now (limitedTunnelID r) (tunnelLimiters sv)) as Htun.
  fold (ipGate now r sv) in Hip. fold (tunnelGate now r sv) in Htun.
  destruct (ipGate now r sv).1 eqn:Hallow.
  - destruct (decide (limitedTunnelID r = "")) as [Hid|Hid].
    + by rewrite withRateLimit_no_tunnel.
    + destruct (tunnelGate now r sv).1 eqn:Hallow'.
      * by rewrite withRateLimit_admitted.
      * by rewrite withRateLimit_tunnel_denied.
  - by rewrite withRateLimit_ip_denied.
Qed.

Lemma serve_cleanupFreq now r sv :
  cleanupFreq (ipLimiters (serve now r sv).2) = cleanupFreq (ipLimiters sv)
  ∧ cleanupFreq (tunnelLimiters (serve now r sv).2) = cleanupFreq (tunnelLimiters sv).
Proof.
  unfold serve, withCORS, giveLicense, homePage.
  repeat case_decide; try done; apply withRateLimit_cleanupFreq.
Qed.

Lemma step_cleanupFreq e sv :
  cleanupFreq (ipLimiters (step e sv)) = cleanupFreq (ipLimiters sv)
  ∧ cleanupFreq (tunnelLimiters (step e sv)) = cleanupFreq (tunnelLimiters sv).
Proof. destruct e; [apply serve_cleanupFreq|done..]. Qed.

Lemma reachable_cleanupFreq sv :
  reachable sv →
  cleanupFreq (ipLimiters sv) = CleanupInterval
  ∧ cleanupFreq (tunnelLimiters sv) = CleanupInterval.
Proof.
  induction 1 as [seed|e sv Hreach [IHip IHtun]]; [done|].
  destruct (step_cleanupFreq e sv) as [-> ->]. done.
Qed.

(** C6, as amended.  The process has no time-to-live and no sweeper for
    tunnels: a tunnel that is in the registry stays in it through every
    later sequence of requests, disconnects and sweeper wake-ups, at any
    times.  The sweepers that exist leave the relay alone and drop only
    rate-limiter entries idle for longer than the cleanup interval, which
    is one hour for both stores. *)
Theorem C6_tunnels_are_never_swept es sv id :
  is_Some (tunnels (relay sv) !! id) →
  is_Some (tunnels (relay (run es sv)) !! id)
  ∧ (∀ now, relay (step (CleanupIP now) sv) = relay sv
            ∧ relay (step (CleanupTunnelLimiters now) sv) = relay sv)
  ∧ (∀ now store key entry,
       limiters (cleanup now store) !! key = Some entry
       ↔ limiters store !! key = Some entry
         ∧ ¬ (cleanupFreq store < now - lastSeen entry)%Z)
  ∧ (reachable sv →
       cleanupFreq (ipLimiters sv) = CleanupInterval
       ∧ cleanupFreq (tunnelLimiters sv) = CleanupInterval).
Proof.
  intros Hsome. split; [by apply run_keeps|]. split; [done|].
  split; [|apply reachable_cleanupFreq].
  intros now store key entry. apply cleanup_lookup.
Qed.

(** ** Requests with the DELETE method *)

Section Delete.

Variable r : Request.
Hypothesis Hdelete : Method r = "DELETE".

Lemma delete_not_get : Method r ≠ MethodGet.
Proof. by rewrite Hdelete. Qed.

Lemma delete_not_post : Method r ≠ MethodPost.
Proof. by rewrite Hdelete. Qed.











End Delete.



(** ** The default sub-channel *)

Lemma GetNoSubChannel_eq f id s : GetNoSubChannel f id s = Get f id "main" s.
Proof.
  unfold GetNoSubChannel, Get, getTunnelContent.
  by rewrite readTarget_request_id, readTarget_request.
Qed.

Lemma SubscribeNoSubChannel_eq f id s : SubscribeNoSubChannel f id s = Subscribe f id "main" s.
Proof.
  unfold SubscribeNoSubChannel, Subscribe, streamTunnelContent.
  by rewrite readTarget_request_id, readTarget_request.
Qed.

(** C8, on the code.  Without a sub-channel name, [Get] and [Subscribe]
    in both request forms and [Send] in its POST form behave as with
    ["main"]; [Send] in its GET form does not: it is rejected with 400
    and writes nothing, although the tunnel exists and the same request
    with [subChannel=main] succeeds. *)
Theorem C8_get_form_of_send_does_not_default s id content tunnel :
  tunnels s !! id = Some tunnel → id ≠ "" → content ≠ "" →
  (∀ f, GetNoSubChannel f id s = Get f id "main" s)
  ∧ (∀ f, SubscribeNoSubChannel f id s = Subscribe f id "main" s)
  ∧ SendNoSubChannel ViaPost id content s = Send ViaPost id "main" content s
  ∧ (Send ViaGet id "main" content s).1 = Ok
  ∧ SendNoSubChannel ViaGet id content s =
      (httpError "The request must contain a valid 'id', 'subChannel' and 'content' parameters"
                 StatusBadRequest, s).
Proof.
  intros Htun Hid Hc.
  split; [intros f; apply GetNoSubChannel_eq|].
  split; [intros f; apply SubscribeNoSubChannel_eq|].
  split; [apply SendNoSubChannel_post|].
  split; [|apply SendNoSubChannel_get].
  rewrite Send_valid by done. by rewrite (writeAndBroadcast_Some _ _ _ _ tunnel).
Qed.

(** ** The alphabet *)

Lemma charset_length : String.length charset = 52.
Proof. reflexivity. Qed.

Lemma charset_classes : charset = String.append letters (String.append digits punctuation).
Proof. reflexivity. Qed.

Lemma letters_spec :
  list_ascii_of_string letters
  = map ascii_of_nat (filter (λ n, n ≠ 73 ∧ n ≠ 79) (seq 65 26)).
Proof. reflexivity. Qed.

Lemma digits_spec : list_ascii_of_string digits = map ascii_of_nat (seq 49 9).
Proof. reflexivity. Qed.

Lemma charsetIndex_at i : i < String.length charset → charsetIndex (charsetAt i) = i.
Proof.
  intros Hi.
  assert (forallb (λ i, Nat.eqb (charsetIndex (charsetAt i)) i) (seq 0 52) = true) as Hall
    by (vm_compute; reflexivity).
  rewrite forallb_forall in Hall. apply Nat.eqb_eq, Hall, in_seq.
  rewrite charset_length in Hi. lia.
Qed.

Lemma charsetAt_index ch :
  ch ∈ list_ascii_of_string charset →
  charsetAt (charsetIndex ch) = ch ∧ charsetIndex ch < String.length charset.
Proof.
  intros Hin.
  assert (forallb (λ ch, bool_decide (charsetAt (charsetIndex ch) = ch)
                         && Nat.ltb (charsetIndex ch) 52)
                  (list_ascii_of_string charset) = true) as Hall
    by (vm_compute; reflexivity).
  rewrite forallb_forall in Hall. apply list_elem_of_In, Hall in Hin.
  apply andb_true_iff in Hin as [Hat Hlt].
  apply bool_decide_eq_true in Hat. apply Nat.ltb_lt in Hlt. by rewrite charset_length.
Qed.

Lemma charsetAt_in i : i < String.length charset → charsetAt i ∈ list_ascii_of_string charset.
Proof.
  intros Hi.
  assert (forallb (λ i, bool_decide (charsetAt i ∈ list_ascii_of_string charset))
                  (seq 0 52) = true) as Hall
    by (vm_compute; reflexivity).
  rewrite forallb_forall in Hall. eapply bool_decide_eq_true, Hall, in_seq.
  rewrite charset_length in Hi. lia.
Qed.

Lemma idOfDraws_chars draws : list_ascii_of_string (idOfDraws draws) = map charsetAt draws.
Proof.
  induction draws as [|i rest IH]; [done|].
  cbn [idOfDraws list_ascii_of_string map]. by rewrite IH.
Qed.

Lemma drawsOfId_idOfDraws draws : inRange draws → drawsOfId (idOfDraws draws) = draws.
Proof.
  unfold drawsOfId. rewrite idOfDraws_chars.
  induction 1 as [|i rest Hi Hrest IH]; [done|].
  cbn [map]. by rewrite charsetIndex_at, IH.
Qed.

Lemma idOfDraws_drawsOfId id :
  inAlphabet id → idOfDraws (drawsOfId id) = id ∧ inRange (drawsOfId id).
Proof.
  unfold inAlphabet, inRange, drawsOfId.
  induction id as [|ch rest IH]; cbn [list_ascii_of_string map idOfDraws]; intros Hall;
    [by split|].
  apply Forall_cons in Hall as [Hch Hrest].
  destruct (charsetAt_index ch Hch) as [Hat Hlt]. destruct (IH Hrest) as [Hid Hrange].
  rewrite Hat, Hid. split; [done|by constructor].
Qed.

Lemma idOfDraws_inAlphabet draws : inRange draws → inAlphabet (idOfDraws draws).
Proof.
  unfold inAlphabet. rewrite idOfDraws_chars.
  induction 1 as [|i rest Hi Hrest IH]; cbn [map]; constructor; [by apply charsetAt_in|done].
Qed.

Lemma drawsOf_inRange amount g :
  (∀ g n, 0 < n → (Intn g n).1 < n) → inRange (drawsOf amount g).
Proof.
  intros Hintn. revert g. induction amount as [|n IH]; intros g; [constructor|].
  cbn [drawsOf]. pose proof (Hintn g (String.length charset)) as Hlt.
  destruct (Intn g (String.length charset)) as [i g1].
  constructor; [|apply IH]. apply Hlt. rewrite charset_length. lia.
Qed.

(** C9.  Provided [rand.Intn(n)] answers below [n]: a create without id
    answers an id of exactly 6 characters, the k-th of which is the
    alphabet character indexed by the k-th draw alone; the draws range
    over the 52 positions of the alphabet (24 upper-case letters without
    I and O, the digits 1 to 9, 19 punctuation characters), and ids over
    the alphabet correspond one to one to sequences of draws, so equally
    likely draws give equally likely characters.  Nothing checks that the
    id is free: the tunnel registered under it is replaced by an empty
    one. *)
Theorem C9_generated_id_is_six_draws_from_the_alphabet s :
  (∀ g n, 0 < n → (Intn g n).1 < n) →
  (CreateTunnel ViaGet "" s).1 = Created (idOfDraws (drawsOf 6 (rng s)))
  ∧ List.length (drawsOf 6 (rng s)) = 6
  ∧ inRange (drawsOf 6 (rng s))
  ∧ String.length (idOfDraws (drawsOf 6 (rng s))) = 6
  ∧ inAlphabet (idOfDraws (drawsOf 6 (rng s)))
  ∧ tunnels (CreateTunnel ViaGet "" s).2 !! idOfDraws (drawsOf 6 (rng s))
    = Some (mkTunnel (idOfDraws (drawsOf 6 (rng s))) "" ∅)
  ∧ (∀ draws, list_ascii_of_string (idOfDraws draws) = map charsetAt draws)
  ∧ (∀ d1 d2, inRange d1 → inRange d2 → idOfDraws d1 = idOfDraws d2 → d1 = d2)
  ∧ (∀ id, inAlphabet id →
       ∃ draws, inRange draws ∧ List.length draws = String.length id ∧ idOfDraws draws = id)
  ∧ charset = String.append letters (String.append digits punctuation)
  ∧ String.length charset = 52.
Proof.
  intros Hintn. rewrite CreateTunnel_generated, generateRandomID_draws. cbn [fst snd].
  split; [done|]. split; [apply drawsOf_length|].
  split; [by apply drawsOf_inRange|].
  split; [by rewrite idOfDraws_length, drawsOf_length|].
  split; [by apply idOfDraws_inAlphabet, drawsOf_inRange|].
  split; [cbn [installTunnel tunnels]; by rewrite lookup_insert_eq|].
  split; [apply idOfDraws_chars|].
  split.
  { intros d1 d2 H1 H2 Heq.
    rewrite <- (drawsOfId_idOfDraws d1), <- (drawsOfId_idOfDraws d2) by done.
    by rewrite Heq. }
  split; [|done].
  intros id Hid. destruct (idOfDraws_drawsOfId id Hid) as [Heq Hrange].
  exists (drawsOfId id). split; [done|]. split; [|done].
  by rewrite <- idOfDraws_length, Heq.
Qed.

(** ** Stored values *)

Lemma installTunnel_entries id' s id tunnel' subChannel content :
  tunnels (installTunnel id' s) !! id = Some tunnel' →
  SubChannels tunnel' !! subChannel = Some content →
  ∃ tunnel, tunnels s !! id = Some tunnel ∧ SubChannels tunnel !! subChannel = Some content.
Proof.
  cbn. destruct (decide (id' = id)) as [->|Hne].
  - rewrite lookup_insert_eq. intros [= <-]. cbn. by rewrite lookup_empty.
  - rewrite lookup_insert_ne by done. eauto.
Qed.

Lemma createTunnel_entries r s id tunnel' subChannel content :
  tunnels (createTunnel r s).2 !! id = Some tunnel' →
  SubChannels tunnel' !! subChannel = Some content →
  ∃ tunnel, tunnels s !! id = Some tunnel ∧ SubChannels tunnel !! subChannel = Some content.
Proof.
  unfold createTunnel.
  case_decide; [destruct (Body r); eauto; case_decide; eauto; apply installTunnel_entries|].
  case_decide; [|eauto].
  case_decide; [|apply installTunnel_entries].
  destruct (generateRandomID 6 (rng s)) as [tunnelId g].
  apply (installTunnel_entries tunnelId (mkState (tunnels s) (clients s) (nextChan s) (sent s) g)).
Qed.

Lemma step_entries e sv id tunnel' subChannel content :
  tunnels (relay (step e sv)) !! id = Some tunnel' →
  SubChannels tunnel' !! subChannel = Some content →
  (∃ tunnel, tunnels (relay sv) !! id = Some tunnel
             ∧ SubChannels tunnel !! subChannel = Some content)
  ∨ (∃ now r, e = Serve now r ∧ relay (step e sv) = (sendToTunnel r (relay sv)).2).
Proof.
  destruct e as [now r| | |]; cbn [step relay];
    [|rewrite disconnect_tunnels; eauto|eauto..].
  destruct (serve_relay now r sv) as [->|(next & Hin & Hnext)]; [eauto|].
  repeat (apply elem_of_cons in Hin as [->|Hin]).
  - rewrite Hnext. intros Htun Hsub. left. by eapply createTunnel_entries.
  - rewrite Hnext, streamTunnelContent_tunnels. eauto.
  - rewrite Hnext, getTunnelContent_state. eauto.
  - intros _ _. right. by exists now, r.
  - by apply elem_of_nil in Hin.
Qed.

(** C10.  In every reachable state every value stored in a tunnel's
    sub-channel mapping is a non-empty string: a create installs an empty
    mapping, a send with empty content is rejected as a validation error
    before anything is written, and an entry only ever appears through
    [sendToTunnel].  Hence [Get] on an existing tunnel answers Empty
    exactly when the sub-channel has no entry, that is, was never
    written since the tunnel was created. *)
Theorem C10_stored_values_are_never_empty sv :
  reachable sv →
  (∀ id tunnel subChannel content,
     tunnels (relay sv) !! id = Some tunnel →
     SubChannels tunnel !! subChannel = Some content → content ≠ "")
  ∧ (∀ f id tunnel subChannel,
       tunnels (relay sv) !! id = Some tunnel →
       (Get f id subChannel (relay sv)).1 = Empty
       ↔ SubChannels tunnel !! orMain subChannel = None)
  ∧ (∀ f id, id ≠ "" →
       tunnels (CreateTunnel f id (relay sv)).2 !! id = Some (mkTunnel id "" ∅))
  ∧ (∀ f id subChannel,
       isValidationError (Send f id subChannel "" (relay sv)).1
       ∧ (Send f id subChannel "" (relay sv)).2 = relay sv)
  ∧ (∀ e id tunnel' subChannel content,
       tunnels (relay (step e sv)) !! id = Some tunnel' →
       SubChannels tunnel' !! subChannel = Some content →
       (∃ tunnel, tunnels (relay sv) !! id = Some tunnel
                  ∧ SubChannels tunnel !! subChannel = Some content)
       ∨ (∃ now r, e = Serve now r ∧ relay (step e sv) = (sendToTunnel r (relay sv)).2)).
Proof.
  intros Hreach. destruct (reachable_wellFormed sv Hreach) as (Hkey & Hval & _).
  split; [done|]. split; [|split; [|split]].
  - intros f id tunnel subChannel Htun.
    assert (id ≠ "") as Hid by (intros ->; congruence).
    rewrite Get_eq, decide_False, Htun by done.
    destruct (SubChannels tunnel !! orMain subChannel) as [content|] eqn:Hsub.
    + rewrite (mapGet_Some _ _ _ Hsub). pose proof (Hval _ _ _ _ Htun Hsub).
      rewrite decide_True by done. split; discriminate.
    + rewrite (mapGet_None _ _ Hsub). by rewrite decide_False by (intros H; by apply H).
  - intros f id Hid. rewrite CreateTunnel_named by done. cbn. by rewrite lookup_insert_eq.
  - intros f id subChannel. apply Send_empty_content.
  - intros e id tunnel' subChannel content. apply step_entries.
Qed.

Lemma reachable_run es sv : reachable sv → reachable (run es sv).
Proof.
  revert sv. induction es as [|e es IH]; intros sv Hreach; [done|].
  cbn. apply IH. by constructor.
Qed.

(** * Further properties of the handlers *)

(** ** What a send does to the relay *)

Lemma writeAndBroadcast_cases id subChannel content s :
  writeAndBroadcast id subChannel content s = (NotFound, s) ∧ tunnels s !! id = None
  ∨ ∃ tunnel, tunnels s !! id = Some tunnel
      ∧ writeAndBroadcast id subChannel content s = (Ok, written id subChannel content tunnel s).
Proof.
  unfold writeAndBroadcast. destruct (tunnels s !! id) as [tunnel|]; [right|left]; eauto.
Qed.

Lemma sendToTunnel_cases r s :
  ((sendToTunnel r s).2 = s ∧ (sendToTunnel r s).1 ≠ Ok)
  ∨ ∃ id subChannel content tunnel,
      id ≠ "" ∧ subChannel ≠ "" ∧ content ≠ "" ∧ tunnels s !! id = Some tunnel
      ∧ sendToTunnel r s = (Ok, written id subChannel content tunnel s).
Proof.
  destruct (decide (Method r = MethodPost)) as [Hpost|Hpost].
  - destruct (Body r) as [| | |m] eqn:Hbody;
      [left; unfold sendToTunnel; rewrite decide_True, Hbody by done;
       split; [done|discriminate] ..|].
    rewrite (sendToTunnel_post r s m) by done.
    case_decide as Hbad; [left; split; [done|discriminate]|].
    pose proof (postSubChannel_nonempty m).
    destruct (writeAndBroadcast_cases (postId m) (postSubChannel m) (mapGet m "content") s)
      as [[-> _]|(tunnel & Htun & ->)]; [left; split; [done|discriminate]|].
    right. exists (postId m), (postSubChannel m), (mapGet m "content"), tunnel. intuition.
  - destruct (decide (Method r = MethodGet)) as [Hget|Hget].
    + rewrite sendToTunnel_get by done. cbv zeta.
      case_decide as Hbad; [left; split; [done|discriminate]|].
      match goal with
      | |- context [writeAndBroadcast ?i ?sc ?c s] =>
          destruct (writeAndBroadcast_cases i sc c s) as [[-> _]|(tunnel & Htun & ->)];
            [left; split; [done|discriminate]|];
            right; exists i, sc, c, tunnel; intuition
      end.
    + left. unfold sendToTunnel. rewrite !decide_False by done. split; [done|discriminate].
Qed.


Lemma Send_cases f id subChannel content s :
  (Send f id subChannel content s).2 = s
  ∨ ∃ tunnel, tunnels s !! id = Some tunnel ∧ id ≠ "" ∧ content ≠ ""
      ∧ Send f id subChannel content s
        = (Ok, written id (orMain subChannel) content tunnel s).
Proof.
  destruct f; [rewrite Send_get|rewrite Send_post]; (case_decide as Hbad; [by left|]).
  - destruct (writeAndBroadcast_cases id subChannel content s)
      as [[-> _]|(tunnel & Htun & ->)]; [by left|].
    right. exists tunnel. rewrite (orMain_id subChannel) by intuition. intuition.
  - destruct (writeAndBroadcast_cases id (orMain subChannel) content s)
      as [[-> _]|(tunnel & Htun & ->)]; [by left|].
    right. exists tunnel. intuition.
Qed.

Lemma Get_written f id' subChannel' id subChannel content tunnel s :
  tunnels s !! id = Some tunnel →
  (id', orMain subChannel') ≠ (id, subChannel) →
  (Get f id' subChannel' (written id subChannel content tunnel s)).1
  = (Get f id' subChannel' s).1.
Proof.
  intros Htun Hne. rewrite !Get_eq. case_decide; [done|]. cbn [written tunnels].
  destruct (decide (id = id')) as [<-|Hid].
  - rewrite lookup_insert_eq, Htun. cbn [SubChannels].
    rewrite mapGet_insert_ne by congruence. by repeat case_decide.
  - rewrite lookup_insert_ne by done. destruct (tunnels s !! id'); [|done].
    by repeat case_decide.
Qed.

(** X2.  Sub-channels are isolated: whatever a [Send] to the pair
    (id, sub-channel) does, a [Get] on any other pair answers exactly what
    it answered before. *)
Theorem Send_leaves_other_pairs_alone f f' id subChannel content id' subChannel' s :
  (id', orMain subChannel') ≠ (id, orMain subChannel) →
  (Get f' id' subChannel' (Send f id subChannel content s).2).1
  = (Get f' id' subChannel' s).1.
Proof.
  intros Hne. destruct (Send_cases f id subChannel content s)
    as [->|(tunnel & Htun & _ & _ & ->)]; [done|].
  by apply Get_written.
Qed.

Lemma Send_written f id subChannel content tunnel s :
  tunnels s !! id = Some tunnel → id ≠ "" → subChannel ≠ "" → content ≠ "" →
  Send f id subChannel content s = (Ok, written id subChannel content tunnel s).
Proof.
  intros Htun Hid Hsub Hc. rewrite Send_valid by done.
  by rewrite (writeAndBroadcast_Some _ _ _ _ tunnel).
Qed.





Lemma received_written id subChannel content tunnel s c :
  NoDup (sinks s id subChannel) →
  received (written id subChannel content tunnel s) c
  = received s c ++ (if decide (c ∈ sinks s id subChannel) then [content] else []).
Proof.
  intros Hdup. unfold received at 1. cbn [written sent]. rewrite received_app.
  case_decide.
  - by rewrite filter_eq_NoDup_in.
  - by rewrite filter_eq_not_in.
Qed.


Lemma createTunnel_clients r s :
  clients (createTunnel r s).2 = clients s
  ∧ sent (createTunnel r s).2 = sent s
  ∧ nextChan (createTunnel r s).2 = nextChan s.
Proof.
  unfold createTunnel.
  case_decide; [destruct (Body r); try done; by case_decide|].
  case_decide; [|done]. case_decide; [|done].
  by destruct (generateRandomID 6 (rng s)).
Qed.

Lemma sinks_createTunnel r s id subChannel :
  sinks (createTunnel r s).2 id subChannel = sinks s id subChannel.
Proof. unfold sinks. by destruct (createTunnel_clients r s) as (-> & _). Qed.

(** X5.  Creating a tunnel never touches the subscriber registry or the
    delivery log, whatever the request: live subscribers of a re-created
    tunnel stay attached, and the next send to the re-created tunnel is
    delivered to exactly the channels that were registered before. *)
Theorem recreating_a_tunnel_keeps_its_subscribers f f' id subChannel content s :
  id ≠ "" → subChannel ≠ "" → content ≠ "" →
  (∀ r, clients (createTunnel r s).2 = clients s
        ∧ sent (createTunnel r s).2 = sent s
        ∧ nextChan (createTunnel r s).2 = nextChan s)
  ∧ (Send f id subChannel content (CreateTunnel f' id s).2).1 = Ok
  ∧ sent (Send f id subChannel content (CreateTunnel f' id s).2).2
    = sent s ++ map (λ client, (client, content)) (sinks s id subChannel).
Proof.
  intros Hid Hsub Hc. split; [intros r; apply createTunnel_clients|].
  rewrite CreateTunnel_named by done. cbn [snd].
  rewrite (Send_written f _ _ _ (mkTunnel id "" ∅))
    by (done || (cbn; by rewrite lookup_insert_eq)).
  done.
Qed.

(** ** Subscribing and disconnecting *)

Lemma readTarget_failure r resp :
  readTarget r = inl resp → ∃ msg, resp = httpError msg StatusInternalServerError.
Proof.
  unfold readTarget. case_decide; [done|]. case_decide; [|done].
  destruct (Body r); intros [= <-]; by eexists.
Qed.

Lemma streamTunnelContent_cases r s :
  ((streamTunnelContent r s).2 = s
   ∧ ∃ msg code, (streamTunnelContent r s).1 = httpError msg code)
  ∨ ∃ id subChannel,
      id ≠ "" ∧ subChannel ≠ "" ∧ is_Some (tunnels s !! id)
      ∧ streamTunnelContent r s
        = (Reply StatusOK (EventStream (nextChan s)), attached id subChannel s).
Proof.
  unfold streamTunnelContent.
  destruct (readTarget r) as [failure|[tunnelId subChannel]] eqn:Htarget.
  { left. destruct (readTarget_failure r failure Htarget) as [msg ->]. split; [done|by eauto]. }
  cbv zeta. fold (orMain subChannel).
  case_decide as Hid; [left; split; [done|by do 2 eexists]|].
  destruct (tunnels s !! tunnelId) as [tunnel|] eqn:Htun;
    [|left; split; [done|by do 2 eexists]].
  right. exists tunnelId, (orMain subChannel).
  split; [done|]. split; [apply orMain_nonempty|]. split; [by eexists|].
  unfold attached. by rewrite sinks_alt.
Qed.

(** X6.  A stream request either registers a channel or changes nothing:
    on any request, either the answer is an error status and the relay is
    exactly as before, or the tunnel exists, the answer is the event
    stream of a channel made for this request, and that channel has been
    appended to the list of one pair with non-empty tunnel id and
    sub-channel name. *)
Theorem streamTunnelContent_registers_or_changes_nothing r s :
  ((streamTunnelContent r s).2 = s
   ∧ ∃ msg code, (streamTunnelContent r s).1 = httpError msg code)
  ∨ ∃ id subChannel,
      id ≠ "" ∧ subChannel ≠ "" ∧ is_Some (tunnels s !! id)
      ∧ streamTunnelContent r s
        = (Reply StatusOK (EventStream (nextChan s)), attached id subChannel s).
Proof. apply streamTunnelContent_cases. Qed.

Lemma sinks_attached id subChannel s id' subChannel' :
  sinks (attached id subChannel s) id' subChannel'
  = if decide (id' = id ∧ subChannel' = subChannel)
    then sinks s id subChannel ++ [nextChan s]
    else sinks s id' subChannel'.
Proof. unfold sinks at 1. cbn [attached clients]. by rewrite sinks_update. Qed.

Lemma removeClient_not_in c l : c ∉ l → removeClient c l = l.
Proof.
  induction l as [|x l IH]; [done|]. intros [Hne Hnot]%not_elem_of_cons.
  cbn. rewrite decide_False by done. by rewrite IH.
Qed.

Lemma removeClient_app_last c l : c ∉ l → removeClient c (l ++ [c]) = l.
Proof.
  induction l as [|x l IH]; cbn.
  - intros _. by rewrite decide_True.
  - intros [Hne Hnot]%not_elem_of_cons. rewrite decide_False by done. by rewrite IH.
Qed.

Lemma sinks_disconnect id subChannel c s id' subChannel' :
  sinks (disconnect id subChannel c s) id' subChannel'
  = if decide (id' = id ∧ subChannel' = subChannel)
    then removeClient c (sinks s id subChannel)
    else sinks s id' subChannel'.
Proof.
  unfold disconnect. case_decide as Hin.
  - unfold sinks at 1. cbn [clients]. by rewrite sinks_update.
  - case_decide as Heq; [|done]. destruct Heq as [-> ->].
    by rewrite removeClient_not_in.
Qed.

Lemma Subscribe_attached f id subChannel s c s' :
  Subscribe f id subChannel s = (Reply StatusOK (EventStream c), s') →
  c = nextChan s ∧ s' = attached id (orMain subChannel) s.
Proof.
  rewrite Subscribe_eq. case_decide; [discriminate|].
  destruct (tunnels s !! id); [|discriminate]. by intros [= <- <-].
Qed.

Lemma nextChan_not_registered s id subChannel :
  wellFormed s → nextChan s ∉ sinks s id subChannel.
Proof. intros (_ & _ & _ & Hlt & _) Hin%Hlt. lia. Qed.

(** X7.  Subscribing and then disconnecting leaves no trace in the
    subscriber registry: in a reachable state, once the channel handed
    out by a subscribe is disconnected from its pair, every pair has
    exactly the channels it had before the subscribe, in the same
    order. *)
Theorem subscribe_then_disconnect_restores_the_registry sv f id subChannel c s' :
  reachable sv →
  Subscribe f id subChannel (relay sv) = (Reply StatusOK (EventStream c), s') →
  ∀ id' subChannel',
    sinks (disconnect id (orMain subChannel) c s') id' subChannel'
    = sinks (relay sv) id' subChannel'.
Proof.
  intros Hreach [-> ->]%Subscribe_attached id' subChannel'.
  pose proof (reachable_wellFormed sv Hreach) as Hwf.
  rewrite sinks_disconnect, !sinks_attached. rewrite (decide_True (P := id = id ∧ _)) by done.
  case_decide as Heq; [|done]. destruct Heq as [-> ->].
  by rewrite removeClient_app_last by by apply nextChan_not_registered.
Qed.

(** ** Bookkeeping kept by every step *)

Lemma createTunnel_cases r s :
  (createTunnel r s).2 = s
  ∨ ∃ id g, id ≠ ""
      ∧ (createTunnel r s).2
        = installTunnel id (mkState (tunnels s) (clients s) (nextChan s) (sent s) g).
Proof.
  unfold createTunnel.
  case_decide.
  { destruct (Body r) as [| | |m]; [by left..|]. case_decide; [by left|].
    right. exists (mapGet m "id"), (rng s). split; [done|]. by destruct s. }
  case_decide; [|by left]. case_decide.
  - pose proof (generateRandomID_nonempty 5 (rng s)).
    destruct (generateRandomID 6 (rng s)) as [tunnelId g]. right. by exists tunnelId, g.
  - right. exists (queryGet r "id"), (rng s). split; [done|]. by destruct s.
Qed.

Lemma consistent_same_clients s s' :
  tunnels s' = tunnels s → clients s' = clients s → consistent s → consistent s'.
Proof.
  intros Htun Hcl (Hid & Hkeys & Huniq). unfold consistent, sinks in *.
  rewrite Htun, Hcl. done.
Qed.

Lemma installTunnel_consistent id s : consistent s → consistent (installTunnel id s).
Proof.
  intros (Hid & Hkeys & Huniq). split; [|done].
  intros id' tunnel. cbn. destruct (decide (id = id')) as [<-|Hne].
  - rewrite lookup_insert_eq. by intros [= <-].
  - rewrite lookup_insert_ne by done. apply Hid.
Qed.

Lemma written_consistent id subChannel content tunnel s :
  tunnels s !! id = Some tunnel → consistent s →
  consistent (written id subChannel content tunnel s).
Proof.
  intros Htun (Hid & Hkeys & Huniq). split; [|done].
  intros id' tunnel'. cbn. destruct (decide (id = id')) as [<-|Hne].
  - rewrite lookup_insert_eq. intros [= <-]. cbn. by apply Hid.
  - rewrite lookup_insert_ne by done. apply Hid.
Qed.

Lemma attached_consistent id subChannel s :
  id ≠ "" → subChannel ≠ "" → wellFormed s → consistent s →
  consistent (attached id subChannel s).
Proof.
  intros Hne Hsub Hwf (Hid & Hkeys & Huniq). split; [done|]. split.
  - intros id' subChannel' c. rewrite sinks_attached. case_decide as Heq; [|apply Hkeys].
    destruct Heq as [-> ->]. done.
  - intros id1 sub1 id2 sub2 c. rewrite !sinks_attached.
    pose proof (nextChan_not_registered s) as Hfresh.
    repeat case_decide;
      repeat match goal with H : _ ∧ _ |- _ => destruct H as [-> ->] end;
      rewrite ?elem_of_app, ?list_elem_of_singleton; intros H1 H2.
    + done.
    + destruct H1 as [H1| ->]; [by eapply Huniq|]. by apply Hfresh in H2.
    + destruct H2 as [H2| ->]; [by eapply Huniq|]. by apply Hfresh in H1.
    + by eapply Huniq.
Qed.

Lemma disconnect_consistent id subChannel c s :
  consistent s → consistent (disconnect id subChannel c s).
Proof.
  intros (Hid & Hkeys & Huniq). split; [by rewrite disconnect_tunnels|].
  assert (∀ id' subChannel' x,
            x ∈ sinks (disconnect id subChannel c s) id' subChannel' →
            x ∈ sinks s id' subChannel') as Hsub.
  { intros id' subChannel' x. rewrite sinks_disconnect. case_decide as Heq; [|done].
    destruct Heq as [-> ->]. apply removeClient_subset. }
  split.
  - intros id' subChannel' x Hx%Hsub. by eapply Hkeys.
  - intros id1 sub1 id2 sub2 x H1%Hsub H2%Hsub. by eapply Huniq.
Qed.

Lemma step_consistent e sv :
  wellFormed (relay sv) → consistent (relay sv) → consistent (relay (step e sv)).
Proof.
  intros Hwf Hcons.
  destruct e as [now r| | |]; cbn [step relay]; [|by apply disconnect_consistent|done..].
  destruct (serve_relay now r sv) as [->|(next & Hin & ->)]; [done|].
  repeat (apply elem_of_cons in Hin as [->|Hin]).
  - destruct (createTunnel_cases r (relay sv)) as [->|(id & g & Hid & ->)]; [done|].
    apply installTunnel_consistent. by eapply consistent_same_clients.
  - destruct (streamTunnelContent_cases r (relay sv))
      as [[-> _]|(id & subChannel & Hid & Hsub & _ & ->)]; [done|].
    by apply attached_consistent.
  - by rewrite getTunnelContent_state.
  - destruct (sendToTunnel_cases r (relay sv))
      as [[-> _]|(id & subChannel & content & tunnel & _ & _ & _ & Htun & ->)]; [done|].
    by apply written_consistent.
  - by apply elem_of_nil in Hin.
Qed.

Lemma reachable_consistent sv : reachable sv → consistent (relay sv).
Proof.
  induction 1 as [seed|e sv Hreach IH].
  - split; [|split]; cbn.
    + intros id tunnel. by rewrite lookup_empty.
    + intros id subChannel c. unfold sinks. cbn. rewrite lookup_empty. by intros ?%elem_of_nil.
    + intros id subChannel id' subChannel' c. unfold sinks. cbn. rewrite lookup_empty.
      by intros ?%elem_of_nil.
  - apply step_consistent; [by apply reachable_wellFormed|done].
Qed.

(** X8.  In every reachable state a tunnel is registered under its own
    [ID] and its [Content] field is empty: the field is never written,
    all content lives in [SubChannels]. *)
Theorem tunnel_is_keyed_by_its_ID_and_Content_stays_empty sv id tunnel :
  reachable sv → tunnels (relay sv) !! id = Some tunnel →
  ID tunnel = id ∧ Content tunnel = "".
Proof. intros Hreach Htun. by apply (reachable_consistent sv Hreach). Qed.

(** X9.  In every reachable state a channel is registered under one pair
    only, never twice in its list, and never under an empty tunnel id or
    an empty sub-channel name; so a delivery for one pair can reach no
    subscriber of another. *)
Theorem a_channel_belongs_to_one_pair sv id subChannel id' subChannel' c :
  reachable sv →
  c ∈ sinks (relay sv) id subChannel → c ∈ sinks (relay sv) id' subChannel' →
  id = id' ∧ subChannel = subChannel' ∧ id ≠ "" ∧ subChannel ≠ ""
  ∧ NoDup (sinks (relay sv) id subChannel).
Proof.
  intros Hreach Hin Hin'.
  destruct (reachable_consistent sv Hreach) as (_ & Hkeys & Huniq).
  destruct (reachable_wellFormed sv Hreach) as (_ & _ & Hdup & _).
  destruct (Huniq _ _ _ _ _ Hin Hin') as [<- <-]. destruct (Hkeys _ _ _ Hin). done.
Qed.

Lemma received_sendToTunnel_other r s c :
  wellFormed s → (∀ id subChannel, c ∉ sinks s id subChannel) →
  received (sendToTunnel r s).2 c = received s c.
Proof.
  intros (_ & _ & Hdup & _) Hnot.
  destruct (sendToTunnel_cases r s)
    as [[-> _]|(id & subChannel & content & tunnel & _ & _ & _ & Htun & ->)]; [done|].
  cbn [snd]. rewrite received_written by apply Hdup.
  rewrite decide_False by apply Hnot. by rewrite app_nil_r.
Qed.

(** X10.  A disconnected subscriber gets nothing more: in a reachable
    state, once a channel registered under a pair is disconnected from
    it, no send request of any form, to any pair, puts anything on that
    channel. *)
Theorem disconnected_channel_receives_nothing_more sv id subChannel c r :
  reachable sv → c ∈ sinks (relay sv) id subChannel →
  received (sendToTunnel r (disconnect id subChannel c (relay sv))).2 c
  = received (relay sv) c.
Proof.
  intros Hreach Hin.
  pose proof (reachable_wellFormed sv Hreach) as Hwf.
  destruct (reachable_consistent sv Hreach) as (_ & _ & Huniq).
  rewrite received_sendToTunnel_other.
  - unfold received, disconnect. by case_decide.
  - by apply disconnect_wellFormed.
  - intros id' subChannel'. rewrite sinks_disconnect. case_decide as Heq.
    + apply removeClient_gone. by destruct Hwf as (_ & _ & Hdup & _).
    + intros Hin'. destruct (Huniq _ _ _ _ _ Hin Hin') as [<- <-]. by apply Heq.
Qed.

(** ** The limiter stores *)

Lemma getLimiterAllow_eq now key store :
  getLimiterAllow now key store =
    ((Allow now (limiterFor key store)).1,
     mkStore (<[key := mkRateLimiter (Allow now (limiterFor key store)).2 now]>
                (limiters store))
             (cleanupFreq store)).
Proof.
  unfold getLimiterAllow, getLimiter, limiterFor.
  destruct (limiters store !! key) as [entry|]; cbn [limiter];
    destruct (Allow now _) as [ok l]; cbn [fst snd limiters cleanupFreq];
    by rewrite alter_insert_eq.
Qed.

(** X11.  Consulting a limiter touches one entry: the decision is that of
    the key's own limiter (a new one on first use); afterwards the key has
    an entry holding the updated limiter with [lastSeen] set to the
    current time, whether the request was allowed or not; every other
    key's entry is untouched. *)
Theorem getLimiterAllow_touches_only_its_key now key store :
  (getLimiterAllow now key store).1 = (Allow now (limiterFor key store)).1
  ∧ limiters (getLimiterAllow now key store).2 !! key
    = Some (mkRateLimiter (Allow now (limiterFor key store)).2 now)
  ∧ (∀ key', key' ≠ key →
       limiters (getLimiterAllow now key store).2 !! key' = limiters store !! key')
  ∧ cleanupFreq (getLimiterAllow now key store).2 = cleanupFreq store.
Proof.
  rewrite getLimiterAllow_eq. cbn [fst snd limiters cleanupFreq].
  split; [done|]. split; [by rewrite lookup_insert_eq|]. split; [|done].
  intros key' Hne. by rewrite lookup_insert_ne.
Qed.

(** X12.  An entry lives for the cleanup interval after its last use: a
    sweep at time [later] keeps the entry of a key consulted at time [now]
    exactly when no more than [cleanupFreq] has passed since. *)
Theorem used_entry_survives_cleanup_within_the_interval now later key store :
  is_Some (limiters (cleanup later (getLimiterAllow now key store).2) !! key)
  ↔ (later - now ≤ cleanupFreq store)%Z.
Proof.
  rewrite getLimiterAllow_eq. split.
  - cbn [snd]. intros [entry [Hlook Hkeep]%cleanup_lookup].
    cbn [limiters cleanupFreq] in *.
    rewrite lookup_insert_eq in Hlook. injection Hlook as <-. cbn in Hkeep. lia.
  - cbn [snd]. intros Hle. eexists. apply cleanup_lookup. cbn [limiters cleanupFreq].
    rewrite lookup_insert_eq. split; [done|]. cbn. lia.
Qed.

(** X13.  An evicted key starts afresh: if a key's entry has been idle
    for longer than the cleanup interval when the sweeper runs, the key's
    next request is decided by a new limiter, whatever the old one had
    recorded. *)
Theorem evicted_key_gets_a_new_limiter now later key store entry :
  limiters store !! key = Some entry →
  (cleanupFreq store < now - lastSeen entry)%Z →
  limiters (cleanup now store) !! key = None
  ∧ (getLimiterAllow later key (cleanup now store)).1 = (Allow later NewLimiter).1.
Proof.
  intros Hlook Hidle.
  assert (limiters (cleanup now store) !! key = None) as Hgone.
  { destruct (limiters (cleanup now store) !! key) as [entry'|] eqn:Hkept; [|done].
    apply cleanup_lookup in Hkept as [Hlook' Hkeep]. congruence. }
  split; [done|]. rewrite getLimiterAllow_eq. cbn [fst]. unfold limiterFor. by rewrite Hgone.
Qed.

Lemma store_eq (a b : RateLimiterStore) :
  limiters a = limiters b → cleanupFreq a = cleanupFreq b → a = b.
Proof. destruct a, b. cbn. by intros -> ->. Qed.

(** X14.  The sweeper only removes: the entries after a sweep are among
    those before, a later sweep keeps no more than an earlier one, and
    sweeping twice at the same time is the same as sweeping once. *)
Theorem cleanup_only_removes now later store :
  limiters (cleanup now store) ⊆ limiters store
  ∧ ((now ≤ later)%Z → limiters (cleanup later store) ⊆ limiters (cleanup now store))
  ∧ cleanup now (cleanup now store) = cleanup now store.
Proof.
  split; [apply map_filter_subseteq|]. split.
  - intros Hle. apply map_subseteq_spec. intros key entry [Hlook Hkeep]%cleanup_lookup.
    apply cleanup_lookup. split; [done|]. lia.
  - apply store_eq; [|done]. apply map_eq. intros key.
    apply option_eq. intros entry. rewrite !cleanup_lookup. cbn [cleanup cleanupFreq]. tauto.
Qed.

Lemma withRateLimit_ipLimiters next now r sv :
  ipLimiters (withRateLimit next now r sv).2 = (ipGate now r sv).2.
Proof.
  destruct (ipGate now r sv).1 eqn:Hip.
  - destruct (decide (limitedTunnelID r = "")) as [Hid|Hid].
    + by rewrite withRateLimit_no_tunnel.
    + destruct (tunnelGate now r sv).1 eqn:Htun.
      * by rewrite withRateLimit_admitted.
      * by rewrite withRateLimit_tunnel_denied.
  - by rewrite withRateLimit_ip_denied.
Qed.

(** X15.  Every request that reaches the rate limiter, admitted or turned
    away, leaves the caller with an entry last seen now; and when the
    caller gate admits a request naming a tunnel id, that id gets an
    entry in the tunnel store whether or not such a tunnel exists. *)
Theorem every_limited_request_refreshes_its_entries next now r sv :
  (∃ entry, limiters (ipLimiters (withRateLimit next now r sv).2) !! callerKey r = Some entry
            ∧ lastSeen entry = now)
  ∧ ((ipGate now r sv).1 = true → limitedTunnelID r ≠ "" →
       ∃ entry, limiters (tunnelLimiters (withRateLimit next now r sv).2)
                  !! limitedTunnelID r = Some entry
                ∧ lastSeen entry = now).
Proof.
  split.
  - rewrite withRateLimit_ipLimiters. unfold ipGate. rewrite getLimiterAllow_eq.
    cbn [snd limiters]. rewrite lookup_insert_eq. by eexists.
  - intros Hip Hid.
    assert (tunnelLimiters (withRateLimit next now r sv).2 = (tunnelGate now r sv).2) as ->.
    { destruct (tunnelGate now r sv).1 eqn:Htun.
      - by rewrite withRateLimit_admitted.
      - by rewrite withRateLimit_tunnel_denied. }
    unfold tunnelGate. rewrite getLimiterAllow_eq.
    cbn [snd limiters]. rewrite lookup_insert_eq. by eexists.
Qed.

(** ** Routing *)



(** ** Reading *)

Lemma getTunnelContent_as_Get f r s id subChannel :
  readTarget r = inr (id, subChannel) → getTunnelContent r s = Get f id subChannel s.
Proof.
  intros Htarget. rewrite Get_eq. unfold getTunnelContent. by rewrite Htarget.
Qed.


(** ** Which tunnel a request is about *)


(** X20.  Send and get read the aliases of a POSTed body with opposite
    precedence: when a body gives both [subchannel] and [subChannel] with
    different values, send writes the sub-channel named by [subchannel]
    while get reads the one named by [subChannel], so a get carrying the
    very fields of a successful send answers what it answered before the
    send. *)
Theorem post_send_is_not_read_back_when_aliases_differ r m s tunnel :
  Method r = MethodPost → Body r = BodyObject m →
  mapGet m "subchannel" ≠ "" → mapGet m "subChannel" ≠ "" →
  mapGet m "subchannel" ≠ mapGet m "subChannel" →
  mapGet m "ID" = "" → mapGet m "id" ≠ "" → mapGet m "content" ≠ "" →
  tunnels s !! mapGet m "id" = Some tunnel →
  sendToTunnel r s
  = (Ok, written (mapGet m "id") (mapGet m "subchannel") (mapGet m "content") tunnel s)
  ∧ (getTunnelContent r (sendToTunnel r s).2).1 = (getTunnelContent r s).1.
Proof.
  intros Hm Hb Hlow Hcamel Hdiff HID Hid Hc Htun.
  assert (postId m = mapGet m "id") as Hpid.
  { unfold postId. by rewrite decide_False by (intros H; by apply H). }
  assert (postSubChannel m = mapGet m "subchannel") as Hpsub.
  { unfold postSubChannel. by rewrite decide_True. }
  assert (readTarget r = inr (mapGet m "id", mapGet m "subChannel")) as Htarget.
  { unfold readTarget. rewrite decide_False by (by rewrite Hm). rewrite decide_True, Hb by done.
    cbv zeta. rewrite (decide_True (P := mapGet m "subchannel" ≠ "")) by done.
    rewrite (decide_True (P := mapGet m "subChannel" ≠ "")) by done.
    rewrite (decide_False (P := mapGet m "ID" ≠ "")) by (intros H; by apply H).
    by case_decide. }
  assert (sendToTunnel r s
          = (Ok, written (mapGet m "id") (mapGet m "subchannel") (mapGet m "content")
                         tunnel s)) as Hsend.
  { rewrite (sendToTunnel_post r s m), Hpid, Hpsub by done.
    rewrite decide_False by intuition.
    by rewrite (writeAndBroadcast_Some _ _ _ _ tunnel). }
  split; [done|]. rewrite Hsend. cbn [snd].
  rewrite !(getTunnelContent_as_Get ViaGet _ _ _ _ Htarget).
  apply Get_written; [done|]. rewrite orMain_id by done. congruence.
Qed.

(** ** Requests the handlers do not expect *)

(** X21.  A request that is neither GET nor POST changes nothing in the
    relay on any route, but the handlers answer it differently: create
    and send with 405, get and stream, which never look at the method
    again, with the 400 of a missing id. *)
Theorem other_methods_are_rejected_without_effect now r sv :
  Method r ≠ MethodGet → Method r ≠ MethodPost →
  relay (serve now r sv).2 = relay sv
  ∧ (∀ s, createTunnel r s
          = (httpError "Method not allowed. Only POST and GET requests are allowed."
                       StatusMethodNotAllowed, s))
  ∧ (∀ s, sendToTunnel r s
          = (httpError "Method not allowed. Only POST and GET requests are allowed."
                       StatusMethodNotAllowed, s))
  ∧ (∀ s, getTunnelContent r s = (missingId, s))
  ∧ (∀ s, streamTunnelContent r s = (missingId, s)).
Proof.
  intros Hget Hpost.
  assert (readTarget r = inr ("", "")) as Htarget
    by (unfold readTarget; by rewrite !decide_False).
  assert (∀ s, createTunnel r s
               = (httpError "Method not allowed. Only POST and GET requests are allowed."
                            StatusMethodNotAllowed, s)) as Hcreate
    by (intros s; unfold createTunnel; by rewrite !decide_False).
  assert (∀ s, sendToTunnel r s
               = (httpError "Method not allowed. Only POST and GET requests are allowed."
                            StatusMethodNotAllowed, s)) as Hsend
    by (intros s; unfold sendToTunnel; by rewrite !decide_False).
  assert (∀ s, getTunnelContent r s = (missingId, s)) as Hread
    by (intros s; unfold getTunnelContent; by rewrite Htarget).
  assert (∀ s, streamTunnelContent r s = (missingId, s)) as Hstream
    by (intros s; unfold streamTunnelContent; by rewrite Htarget).
  split; [|done].
  destruct (serve_relay now r sv) as [->|(next & Hin & ->)]; [done|].
  repeat (apply elem_of_cons in Hin as [->|Hin]);
    [by rewrite Hcreate|by rewrite Hstream|by rewrite Hread|by rewrite Hsend|].
  by apply elem_of_nil in Hin.
Qed.

(** X22.  A POST whose body is the JSON text [null] decodes to a nil map:
    create, get and stream read it like an empty object and answer 400,
    but send assigns the default sub-channel into it and panics; in no
    case is the relay changed. *)
Theorem null_body_is_rejected_or_panics r s :
  Method r = MethodPost → Body r = BodyNull →
  createTunnel r s
  = (httpError "The request body must contain a valid 'id' field" StatusBadRequest, s)
  ∧ getTunnelContent r s = (missingId, s)
  ∧ streamTunnelContent r s = (missingId, s)
  ∧ sendToTunnel r s = (Panic "assignment to entry in nil map", s).
Proof.
  intros Hm Hb.
  assert (readTarget r = inr ("", "")) as Htarget.
  { unfold readTarget. rewrite decide_False by (by rewrite Hm).
    by rewrite decide_True, Hb. }
  split; [unfold createTunnel; by rewrite decide_True, Hb|].
  split; [unfold getTunnelContent; by rewrite Htarget|].
  split; [unfold streamTunnelContent; by rewrite Htarget|].
  unfold sendToTunnel. by rewrite decide_True, Hb.
Qed.

End Properties.

(** * The theorems at work, and where the claims fail

    Everything below is evaluated in the concrete environment. *)

Lemma congruentialIntn_lt (g n : nat) : 0 < n → (congruentialIntn g n).1 < n.
Proof. intros Hn. cbn. apply Nat.mod_upper_bound. lia. Qed.

Lemma busyServer_reachable : reachable busyServer.
Proof. apply reachable_run. constructor. Qed.






(** C4 at work on the empty relay. *)
Lemma C4_witness :
  tunnels emptyRelay !! "nope" = None
  ∧ Send ViaPost "nope" "main" "hello" emptyRelay = (NotFound, emptyRelay).
Proof.
  split; [reflexivity|].
  destruct (C4_send_to_absent_tunnel emptyRelay ViaPost "nope" "main" "hello")
    as (Hstate & Hresp & _).
  - reflexivity.
  - apply injective_projections; [apply Hresp; discriminate|exact Hstate].
Defined.

(** C4 as stated fails for the empty content (and the empty id): the
    answer is a validation error, not NotFound. *)
Lemma C4_counterexample_empty_content :
  tunnels emptyRelay !! "nope" = None
  ∧ (Send ViaGet "nope" "main" "" emptyRelay).1
    = httpError "The request must contain a valid 'id', 'subChannel' and 'content' parameters"
                StatusBadRequest
  ∧ (Send ViaGet "nope" "main" "" emptyRelay).1 ≠ NotFound
  ∧ (Send ViaPost "nope" "main" "" emptyRelay).1 ≠ NotFound
  ∧ tunnels emptyRelay !! "" = None
  ∧ (Send ViaPost "" "main" "hello" emptyRelay).1 ≠ NotFound.
Proof. repeat split; vm_compute; (reflexivity || discriminate). Qed.

(** C5 at work: the eleventh request of one caller in the same instant is
    turned away by the caller gate, and a request for a tunnel whose
    bucket ten other callers emptied is turned away by the tunnel gate;
    the relay is the same afterwards. *)
Lemma C5_witness :
  (ipGate 0 (request ViaGet "/api/v3/tunnel/create" ∅) floodedByCaller).1 = false
  ∧ tooManyRequests
      (withRateLimit createTunnel 0%Z (request ViaGet "/api/v3/tunnel/create" ∅)
                     floodedByCaller).1
  ∧ relay (withRateLimit createTunnel 0%Z (request ViaGet "/api/v3/tunnel/create" ∅)
                         floodedByCaller).2
    = relay floodedByCaller
  ∧ (ipGate 0 (getAFrom "c10") floodedTunnel).1 = true
  ∧ (tunnelGate 0 (getAFrom "c10") floodedTunnel).1 = false
  ∧ tooManyRequests (withRateLimit getTunnelContent 0%Z (getAFrom "c10") floodedTunnel).1
  ∧ relay (withRateLimit getTunnelContent 0%Z (getAFrom "c10") floodedTunnel).2
    = relay floodedTunnel.
Proof.
  destruct (C5_gates_in_order_and_rejections_mutate_nothing
              createTunnel 0%Z (request ViaGet "/api/v3/tunnel/create" ∅) floodedByCaller)
    as (_ & Hip & _).
  destruct (C5_gates_in_order_and_rejections_mutate_nothing
              getTunnelContent 0%Z (getAFrom "c10") floodedTunnel)
    as (_ & _ & _ & Htunnel).
  assert ((ipGate 0 (request ViaGet "/api/v3/tunnel/create" ∅) floodedByCaller).1 = false)
    as Hdenied by (vm_compute; reflexivity).
  assert ((ipGate 0 (getAFrom "c10") floodedTunnel).1 = true)
    as Hallowed by (vm_compute; reflexivity).
  assert ((tunnelGate 0 (getAFrom "c10") floodedTunnel).1 = false)
    as Hfull by (vm_compute; reflexivity).
  destruct (Hip Hdenied) as (Hresp & _ & Hrelay).
  destruct (Htunnel Hallowed) as (_ & Hdeny & _); [discriminate|].
  destruct (Hdeny Hfull) as (Hresp' & Hrelay').
  exact (conj Hdenied (conj Hresp (conj Hrelay (conj Hallowed
           (conj Hfull (conj Hresp' Hrelay')))))).
Defined.

(** C6 at work: tunnel ["A"] outlives two hours and both sweepers. *)
Lemma C6_witness :
  is_Some (tunnels (relay agedServer) !! "A").
Proof.
  apply (C6_tunnels_are_never_swept
           [CleanupIP twoHours; CleanupTunnelLimiters twoHours]
           (run [Serve 0 (request ViaGet "/api/v3/tunnel/create" {[ "id" := "A" ]})]
                (@initial sampleEnv (5 : @Rng sampleEnv)))
           "A").
  vm_compute. by eexists.
Defined.

(** C6 as stated fails: created at time 0, with two hours gone (far more
    than a time-to-live of 5 minutes plus a sweep interval of 10) and
    every sweeper of the process run, the tunnel is still in the registry
    and [Get] answers Empty, not NotFound. *)
Lemma C6_counterexample_tunnel_survives :
  (5 * 60 * 1000000000 + 10 * 60 * 1000000000 < twoHours)%Z
  ∧ reachable agedServer
  ∧ is_Some (tunnels (relay agedServer) !! "A")
  ∧ (serve (twoHours + 1)%Z getA agedServer).1 = Empty
  ∧ (serve (twoHours + 1)%Z getA agedServer).1 ≠ NotFound.
Proof.
  split; [reflexivity|].
  split; [apply reachable_run; constructor|].
  split; [vm_compute; by eexists|].
  split; vm_compute; (reflexivity || discriminate).
Qed.



(** C8 at work, on the busy relay: the GET send without sub-channel is
    rejected where the one naming ["main"] succeeds. *)
Lemma C8_witness :
  (Send ViaGet "A" "main" "x" (relay busyServer)).1 = Ok
  ∧ SendNoSubChannel ViaGet "A" "x" (relay busyServer)
    = (httpError "The request must contain a valid 'id', 'subChannel' and 'content' parameters"
                 StatusBadRequest, relay busyServer)
  ∧ SendNoSubChannel ViaPost "A" "x" (relay busyServer)
    = Send ViaPost "A" "main" "x" (relay busyServer).
Proof.
  destruct (C8_get_form_of_send_does_not_default (relay busyServer) "A" "x"
              (mkTunnel "A" "" {[ "main" := "hello" ]}))
    as (_ & _ & Hpost & Hok & Hget).
  - vm_compute. reflexivity.
  - discriminate.
  - discriminate.
  - exact (conj Hok (conj Hget Hpost)).
Defined.

(** C9 at work: the generated id collides with a tunnel that holds
    content, and replaces it. *)
Lemma C9_witness :
  mapGet (SubChannels (default (mkTunnel "" "" ∅) (tunnels collidingRelay !! "F_;$?L"))) "main"
  = "kept?"
  ∧ (CreateTunnel ViaGet "" collidingRelay).1 = Created "F_;$?L"
  ∧ tunnels (CreateTunnel ViaGet "" collidingRelay).2 !! "F_;$?L"
    = Some (mkTunnel "F_;$?L" "" ∅).
Proof.
  split; [vm_compute; reflexivity|].
  destruct (@C9_generated_id_is_six_draws_from_the_alphabet sampleEnv collidingRelay)
    as (Hresp & _ & _ & _ & _ & Hreplaced & _).
  - intros g n. apply congruentialIntn_lt.
  - split; [exact Hresp|exact Hreplaced].
Defined.

(** C10 at work on the busy server. *)
Lemma C10_witness :
  (Get ViaGet "A" "other" (relay busyServer)).1 = Empty
  ∧ (Get ViaGet "A" "main" (relay busyServer)).1 ≠ Empty.
Proof.
  destruct (C10_stored_values_are_never_empty busyServer busyServer_reachable)
    as (_ & Hempty & _).
  assert (tunnels (relay busyServer) !! "A" = Some (mkTunnel "A" "" {[ "main" := "hello" ]}))
    as Htun by (vm_compute; reflexivity).
  split.
  - apply (Hempty ViaGet "A" _ "other" Htun). vm_compute. reflexivity.
  - intros Hget. apply (Hempty ViaGet "A" _ "main" Htun) in Hget.
    vm_compute in Hget. discriminate Hget.
Defined.

(** * The further properties at work *)

Lemma busyServer_tunnel :
  tunnels (relay busyServer) !! "A" = Some (mkTunnel "A" "" {[ "main" := "hello" ]}).
Proof. vm_compute. reflexivity. Qed.

Lemma busyServer_sink : 0 ∈ sinks (relay busyServer) "A" "main".
Proof. vm_compute. apply list_elem_of_here. Qed.

(** X2 at work: a send to ["main"] is not seen on ["other"]. *)
Lemma X2_witness :
  (Get ViaGet "A" "other" (Send ViaGet "A" "main" "x" (relay busyServer)).2).1
  = (Get ViaGet "A" "other" (relay busyServer)).1.
Proof.
  apply (Send_leaves_other_pairs_alone ViaGet ViaGet "A" "main" "x" "A" "other").
  vm_compute. discriminate.
Defined.



(** X5 at work: tunnel ["A"] is created again while a client streams it. *)
Lemma X5_witness :
  (Send ViaGet "A" "main" "again" (CreateTunnel ViaPost "A" (relay busyServer)).2).1 = Ok
  ∧ sent (Send ViaGet "A" "main" "again" (CreateTunnel ViaPost "A" (relay busyServer)).2).2
    = sent (relay busyServer)
      ++ map (λ client, (client, "again")) (sinks (relay busyServer) "A" "main").
Proof.
  destruct (recreating_a_tunnel_keeps_its_subscribers
              ViaGet ViaPost "A" "main" "again" (relay busyServer))
    as (_ & Hok & Hsent); [discriminate..|].
  exact (conj Hok Hsent).
Defined.

(** X7 at work: a second client of ["A"]/["main"] comes and goes. *)
Lemma X7_witness :
  sinks (disconnect "A" (orMain "main") 1
                    (Subscribe ViaGet "A" "main" (relay busyServer)).2) "A" "main"
  = sinks (relay busyServer) "A" "main".
Proof.
  apply (subscribe_then_disconnect_restores_the_registry busyServer ViaGet "A" "main" 1).
  - apply busyServer_reachable.
  - apply injective_projections; [vm_compute; reflexivity|reflexivity].
Defined.

(** X8 at work. *)
Lemma X8_witness :
  ID (mkTunnel "A" "" {[ "main" := "hello" ]}) = "A"
  ∧ Content (mkTunnel "A" "" {[ "main" := "hello" ]}) = "".
Proof.
  apply (tunnel_is_keyed_by_its_ID_and_Content_stays_empty busyServer "A").
  - apply busyServer_reachable.
  - apply busyServer_tunnel.
Defined.

(** X9 at work. *)
Lemma X9_witness : NoDup (sinks (relay busyServer) "A" "main").
Proof.
  apply (a_channel_belongs_to_one_pair busyServer "A" "main" "A" "main" 0).
  - apply busyServer_reachable.
  - apply busyServer_sink.
  - apply busyServer_sink.
Defined.

(** X10 at work: the streaming client disconnects, then ["x"] is sent. *)
Lemma X10_witness :
  received
    (sendToTunnel (request ViaGet "/api/v3/tunnel/send"
                     (<["id" := "A"]> (<["subChannel" := "main"]> {[ "content" := "x" ]})))
                  (disconnect "A" "main" 0 (relay busyServer))).2 0
  = received (relay busyServer) 0.
Proof.
  apply (disconnected_channel_receives_nothing_more busyServer "A" "main" 0).
  - apply busyServer_reachable.
  - apply busyServer_sink.
Defined.

(** X13 at work: ["caller"], last seen at time 0, is swept two hours
    later. *)
Lemma X13_witness :
  limiters (cleanup twoHours usedStore) !! "caller" = None
  ∧ (getLimiterAllow (twoHours + 1) "caller" (cleanup twoHours usedStore)).1
    = (bucketAllow (twoHours + 1) (mkBucket 10 0)).1.
Proof.
  apply (@evicted_key_gets_a_new_limiter sampleEnv twoHours (twoHours + 1)%Z "caller" usedStore
           (mkRateLimiter (mkBucket 9 0 : @Limiter sampleEnv) 0)).
  - reflexivity.
  - reflexivity.
Defined.




(** X20 at work. *)
Lemma X20_witness :
  (getTunnelContent (post "/api/v3/tunnel/send" bothSpellings)
     (sendToTunnel (post "/api/v3/tunnel/send" bothSpellings) (relay busyServer)).2).1
  = (getTunnelContent (post "/api/v3/tunnel/send" bothSpellings) (relay busyServer)).1.
Proof.
  apply (post_send_is_not_read_back_when_aliases_differ
           (post "/api/v3/tunnel/send" bothSpellings) bothSpellings (relay busyServer)
           (mkTunnel "A" "" {[ "main" := "hello" ]}));
    [reflexivity|reflexivity|vm_compute; discriminate|vm_compute; discriminate
    |vm_compute; discriminate|vm_compute; reflexivity|vm_compute; discriminate
    |vm_compute; discriminate|vm_compute; reflexivity].
Defined.

(** X21 at work: a PUT on the get route. *)
Lemma X21_witness :
  relay (serve 0%Z putRequest busyServer).2 = relay busyServer
  ∧ getTunnelContent putRequest (relay busyServer) = (missingId, relay busyServer).
Proof.
  destruct (other_methods_are_rejected_without_effect 0%Z putRequest busyServer)
    as (Hrelay & _ & _ & Hread & _); [discriminate..|].
  exact (conj Hrelay (Hread (relay busyServer))).
Defined.

(** X22 at work. *)
Lemma X22_witness :
  sendToTunnel nullPost (relay busyServer)
  = (Panic "assignment to entry in nil map", relay busyServer).
Proof.
  apply (null_body_is_rejected_or_panics nullPost (relay busyServer)); reflexivity.
Defined.
